(** * A resumable claim workflow engine: model and verification

    Shallow embedding of [test.py]: the claim workflow graph built by
    [build_claim_workflow] and the [Engine] class that persists execution
    state, audit metadata, the event log and the instance index in a
    namespaced key-value store. *)

From stdpp Require Import gmap strings list fin_maps.
From Stdlib Require Import ZArith Sorted.

Local Open Scope string_scope.
Local Open Scope list_scope.

(** ** Python values held in the bag *)

Local Unset Elimination Schemes.
Inductive value :=
| VNone
| VBool (b : bool)
| VInt (z : Z)
| VStr (s : string)
| VList (l : list value).
Local Set Elimination Schemes.

(** Python truthiness ([if v:]). *)
Definition truthy (v : value) : bool :=
  match v with
  | VNone => false
  | VBool b => b
  | VInt z => negb (z =? 0)%Z
  | VStr s => negb (String.eqb s "")
  | VList l => match l with [] => false | _ :: _ => true end
  end.

(** [if x:] on an [Optional[str]]: [None] and the empty string are falsy. *)
Definition truthy_str (o : option string) : bool :=
  match o with
  | Some s => negb (String.eqb s "")
  | None => false
  end.

(** [bag.get(k) == lit] for a string literal [lit]. *)
Definition get_is (bag : gmap string value) (k lit : string) : bool :=
  match bag !! k with
  | Some (VStr s) => String.eqb s lit
  | _ => false
  end.

(** [if bag.get(k)] *)
Definition get_truthy (bag : gmap string value) (k : string) : bool :=
  match bag !! k with
  | Some v => truthy v
  | None => false
  end.

(** [k in bag] *)
Definition has_key (bag : gmap string value) (k : string) : bool :=
  match bag !! k with
  | Some _ => true
  | None => false
  end.

(** ** Execution state

    The state is a dict [{instance_id, customer_id, workflow_name, bag, meta}];
    [bag] and [meta] are read through [setdefault]/[get(.., {})], so both are
    optional here.  An absent key of [meta] is [None]. *)

Record state_meta := StateMeta {
  sm_status : option string;
  sm_start_time : option string;
  sm_last_node : option string;
  sm_end_time : option string;
}.

Record exec_state := ExecState {
  st_instance_id : string;
  st_customer_id : string;
  st_workflow_name : string;
  st_bag : option (gmap string value);
  st_meta : option state_meta;
}.

Definition empty_meta : state_meta := StateMeta None None None None.

(** [s.get("meta", {})] and [s.get("bag", {})] *)
Definition meta_of (s : exec_state) : state_meta := default empty_meta (st_meta s).
Definition bag_of (s : exec_state) : gmap string value := default ∅ (st_bag s).

Definition set_meta (s : exec_state) (m : state_meta) : exec_state :=
  ExecState (st_instance_id s) (st_customer_id s) (st_workflow_name s) (st_bag s) (Some m).
Definition set_bag (s : exec_state) (b : gmap string value) : exec_state :=
  ExecState (st_instance_id s) (st_customer_id s) (st_workflow_name s) (Some b) (st_meta s).

Definition set_status (m : state_meta) (x : string) : state_meta :=
  StateMeta (Some x) (sm_start_time m) (sm_last_node m) (sm_end_time m).
Definition set_last_node (m : state_meta) (x : string) : state_meta :=
  StateMeta (sm_status m) (sm_start_time m) (Some x) (sm_end_time m).
Definition set_end_time (m : state_meta) (x : string) : state_meta :=
  StateMeta (sm_status m) (sm_start_time m) (sm_last_node m) (Some x).

(** [ensure_defaults(s)]; [t] is the value of the [now_iso()] call, which
    Python evaluates before [setdefault] looks at the key. *)
Definition ensure_defaults (t : string) (s : exec_state) : exec_state :=
  let m := meta_of s in
  ExecState (st_instance_id s) (st_customer_id s) (st_workflow_name s)
    (Some (bag_of s))
    (Some (StateMeta (Some (default "in_progress" (sm_status m)))
                     (Some (default t (sm_start_time m)))
                     (sm_last_node m) (sm_end_time m))).

(** ** The step graph *)

Inductive node :=
| ValidateRequest
| GatherClaimInfo
| IdentifyAccounts
| CancelRequest
| HoldRequest
| ApplySuppression
| FulfillCase.

Definition node_name (n : node) : string :=
  match n with
  | ValidateRequest => "Validate Request"
  | GatherClaimInfo => "Gather Claim Info"
  | IdentifyAccounts => "Identify Accounts & Process Decision"
  | CancelRequest => "Cancel CWD Request"
  | HoldRequest => "Hold Request"
  | ApplySuppression => "Apply Temporary Suppression"
  | FulfillCase => "Fulfill Case and Detect"
  end.

(** What a node hands back: an [Interrupt] carrying a prompt, or the state
    dict itself. *)
Inductive node_result :=
| Interrupt (prompt : string)
| Dict (s : exec_state).

Section Workflow.

(** [now_iso ()] read for the [n]-th time, and the [n]-th [uuid.uuid4()]. *)
Variable now_iso : nat → string.
Variable uuid4 : nat → string.

(** A node receives the clock (number of [now_iso] calls made so far) and the
    state dict; it mutates the dict in place, so it hands back the advanced
    clock, the dict as it now stands, and its return value. *)
Definition step_result : Type := nat * exec_state * node_result.

(** The five input-gathering nodes share one shape:
    defaults, [last_node], then an [Interrupt] when the key is missing. *)
Definition ask (name key prompt : string) (c : nat) (s : exec_state) : step_result :=
  let s1 := ensure_defaults (now_iso c) s in
  let s2 := set_meta s1 (set_last_node (meta_of s1) name) in
  if has_key (bag_of s2) key then (S c, s2, Dict s2)
  else (S c, s2, Interrupt prompt).

Definition validate_request : nat → exec_state → step_result :=
  ask "Validate Request" "validate" "Validate request? (yes/no)".

Definition gather_claim_info : nat → exec_state → step_result :=
  ask "Gather Claim Info" "claim_details" "Provide claim details".

Definition identify_accounts : nat → exec_state → step_result :=
  ask "Identify Accounts & Process Decision" "process_decision"
      "Decision? cancel / hold / suppress".

Definition hold_request : nat → exec_state → step_result :=
  ask "Hold Request" "hold_action" "Workflow on hold. Command: resume / abort".

Definition apply_suppression : nat → exec_state → step_result :=
  ask "Apply Temporary Suppression" "proceed_fulfill" "Proceed to fulfill? (yes/no)".

(** The two terminal nodes: status, end time and a result in the bag. *)
Definition finish (name status result : string) (c : nat) (s : exec_state) : step_result :=
  let s1 := ensure_defaults (now_iso c) s in
  let m := set_end_time (set_status (set_last_node (meta_of s1) name) status)
                        (now_iso (S c)) in
  let s2 := set_bag (set_meta s1 m) (<["result" := VStr result]> (bag_of s1)) in
  (S (S c), s2, Dict s2).

Definition cancel_request : nat → exec_state → step_result :=
  finish "Cancel CWD Request" "aborted" "Workflow aborted.".

Definition fulfill_case : nat → exec_state → step_result :=
  finish "Fulfill Case and Detect" "completed" "Fulfilled and detection complete.".

(** [g.add_node(name, fn)] *)
Definition node_fn (n : node) : nat → exec_state → step_result :=
  match n with
  | ValidateRequest => validate_request
  | GatherClaimInfo => gather_claim_info
  | IdentifyAccounts => identify_accounts
  | CancelRequest => cancel_request
  | HoldRequest => hold_request
  | ApplySuppression => apply_suppression
  | FulfillCase => fulfill_case
  end.

(** The choice each conditional edge makes from the bag once its node has
    handed back the state; [None] is [END].  The two closing nodes have a
    plain edge to [END]. *)
Definition guard (n : node) (bag : gmap string value) : option node :=
  match n with
  | ValidateRequest =>
      if get_is bag "validate" "yes" then Some GatherClaimInfo
      else if get_is bag "validate" "no" then Some CancelRequest
      else None
  | GatherClaimInfo =>
      if get_truthy bag "claim_details" then Some IdentifyAccounts
      else None
  | IdentifyAccounts =>
      if get_is bag "process_decision" "cancel" then Some CancelRequest
      else if get_is bag "process_decision" "hold" then Some HoldRequest
      else if get_is bag "process_decision" "suppress" then Some ApplySuppression
      else None
  | HoldRequest =>
      if get_is bag "hold_action" "resume" then Some ApplySuppression
      else if get_is bag "hold_action" "abort" then Some CancelRequest
      else None
  | ApplySuppression =>
      if get_is bag "proceed_fulfill" "yes" then Some FulfillCase
      else if get_is bag "proceed_fulfill" "no" then Some CancelRequest
      else None
  | FulfillCase => None
  | CancelRequest => None
  end.

(** [lambda s: END if isinstance(s, Interrupt) else (...)] *)
Definition route (n : node) (r : node_result) : option node :=
  match r with
  | Interrupt _ => None
  | Dict s => guard n (bag_of s)
  end.

Definition entry_point : node := ValidateRequest.

(** Modelled from the spec: the traversal loop of the compiled graph, which
    belongs to the graph library and not to this repository.  Following
    section 4.1, a run starts at the entry step, applies the step, lets the
    step's conditional edge pick the next step from what the step handed
    back, and stops at the terminal marker with the last step's value: a
    Pause if that step paused, the state otherwise.  The library gives up
    after [recursion_limit] steps; [None] stands for that error. *)
Fixpoint traverse (fuel : nat) (n : node) (c : nat) (s : exec_state)
  : option step_result :=
  match fuel with
  | O => None
  | S fuel' =>
      let '(c', s', r) := node_fn n c s in
      match route n r with
      | None => Some (c', s', r)
      | Some n' => traverse fuel' n' c' s'
      end
  end.

Definition recursion_limit : nat := 25.

(** [self.graph.invoke(state)] *)
Definition invoke (c : nat) (s : exec_state) : option step_result :=
  traverse recursion_limit entry_point c s.


(** ** Audit metadata, events, summaries *)

(** One entry of [steps_history]: [{ts, node, actor, status}]. *)
Record history_entry := HistoryEntry {
  h_ts : string;
  h_node : string;
  h_actor : string;
  h_status : string;
}.

Record InstanceMeta := MkInstanceMeta {
  instance_id : string;
  customer_id : string;
  workflow_name : string;
  started_by : string;
  last_actor : option string;
  status : string;
  last_node : option string;
  start_time : option string;
  end_time : option string;
  steps_history : list history_entry;
}.

(** The [data] dict of an event; each call site builds one fixed shape. *)
Inductive event_data :=
| DCustomer (customer_id : string)
| DUpdates (updates : gmap string value)
| DPrompt (prompt : string)
| DResult (result : option value)
| DEmpty.

Record event := Event {
  ev_ts : string;
  ev_instance_id : string;
  ev_event : string;
  ev_node : option string;
  ev_status : string;
  ev_actor : option string;
  ev_data : event_data;
}.

(** The dict [_run] returns. *)
Inductive summary :=
| SPaused (prompt : string) (iid : string)
| SCompleted (node : string) (result : option value) (iid : string)
| SAborted (node : string) (result : option value) (iid : string)
| SInProgress (node : string) (iid : string).

Definition summary_status (p : summary) : string :=
  match p with
  | SPaused _ _ => "paused"
  | SCompleted _ _ _ => "completed"
  | SAborted _ _ _ => "aborted"
  | SInProgress _ _ => "in_progress"
  end.

Definition summary_prompt (p : summary) : option string :=
  match p with
  | SPaused q _ => Some q
  | _ => None
  end.

(** ** The store and the engine monad *)

(** The four namespaces of the store, each a map from key to value, with the
    two sources of fresh values: how often the clock and the id generator
    have been read. *)
Record world := World {
  state_ns : gmap string exec_state;
  meta_ns : gmap string InstanceMeta;
  events_ns : gmap string (list event);
  index_ns : gmap string (list string);
  clock : nat;
  uuids : nat;
}.

Definition empty_world : world := World ∅ ∅ ∅ ∅ 0 0.

Inductive exn :=
| ValueError (msg : string)
| TypeError (msg : string)
| KeyError (key : string)
| GraphRecursionError.

(** Engine code reads and writes the store and may raise; the store keeps
    whatever was written before the exception. *)
Definition M (A : Type) : Type := world → world * (exn + A).

Definition ret {A} (a : A) : M A := λ w, (w, inr a).
Definition raise {A} (e : exn) : M A := λ w, (w, inl e).
Definition bind {A B} (m : M A) (k : A → M B) : M B :=
  λ w, match m w with
       | (w', inr a) => k a w'
       | (w', inl e) => (w', inl e)
       end.

Notation "'do' x <- m ; k" := (bind m (λ x, k))
  (at level 10, x name, m at level 100, k at level 200).
Notation "'run' m ; k" := (bind m (λ _, k))
  (at level 10, m at level 100, k at level 200).

Definition tick : M string :=
  λ w, (World (state_ns w) (meta_ns w) (events_ns w) (index_ns w) (S (clock w)) (uuids w),
        inr (now_iso (clock w))).

Definition fresh_uuid : M string :=
  λ w, (World (state_ns w) (meta_ns w) (events_ns w) (index_ns w) (clock w) (S (uuids w)),
        inr (uuid4 (uuids w))).

Definition set_clock (c : nat) : M unit :=
  λ w, (World (state_ns w) (meta_ns w) (events_ns w) (index_ns w) c (uuids w), inr tt).

Definition get_clock : M nat := λ w, (w, inr (clock w)).

(** [self._unwrap(self.store.get(NS, key))] for each namespace *)
Definition get_state_item (iid : string) : M (option exec_state) :=
  λ w, (w, inr (state_ns w !! iid)).
Definition get_meta_item (iid : string) : M (option InstanceMeta) :=
  λ w, (w, inr (meta_ns w !! iid)).
Definition get_events_item (iid : string) : M (option (list event)) :=
  λ w, (w, inr (events_ns w !! iid)).
Definition get_index_item (key : string) : M (option (list string)) :=
  λ w, (w, inr (index_ns w !! key)).

(** [self.store.put(NS, key, value)] for each namespace *)
Definition put_state (iid : string) (s : exec_state) : M unit :=
  λ w, (World (<[iid := s]> (state_ns w)) (meta_ns w) (events_ns w) (index_ns w)
              (clock w) (uuids w), inr tt).
Definition put_meta_item (iid : string) (m : InstanceMeta) : M unit :=
  λ w, (World (state_ns w) (<[iid := m]> (meta_ns w)) (events_ns w) (index_ns w)
              (clock w) (uuids w), inr tt).
Definition put_events (iid : string) (l : list event) : M unit :=
  λ w, (World (state_ns w) (meta_ns w) (<[iid := l]> (events_ns w)) (index_ns w)
              (clock w) (uuids w), inr tt).
Definition put_index (key : string) (l : list string) : M unit :=
  λ w, (World (state_ns w) (meta_ns w) (events_ns w) (<[key := l]> (index_ns w))
              (clock w) (uuids w), inr tt).

(** ** The engine *)

(** [Engine.workflow_name] *)
Variable self_workflow_name : string.

(** [_add_to_index]: the index lives under the one key ["instances"]. *)
Definition _add_to_index (iid : string) : M unit :=
  do item <- get_index_item "instances";
  let idx := default [] item in
  if bool_decide (iid ∈ idx) then ret tt
  else put_index "instances" (idx ++ [iid]).

(** [_append_event] *)
Definition _append_event (iid : string) (kind : string) (node : option string)
    (st : string) (actor : option string) (data : event_data) : M unit :=
  do item <- get_events_item iid;
  do ts <- tick;
  put_events iid (default [] item ++ [Event ts iid kind node st actor data]).

(** [_put_meta] stores under the metadata's own [instance_id]. *)
Definition _put_meta (m : InstanceMeta) : M unit :=
  put_meta_item (instance_id m) m.

Definition _get_meta (iid : string) : M (option InstanceMeta) :=
  get_meta_item iid.

Definition with_status (m : InstanceMeta) (x : string) : InstanceMeta :=
  MkInstanceMeta (instance_id m) (customer_id m) (workflow_name m) (started_by m)
    (last_actor m) x (last_node m) (start_time m) (end_time m) (steps_history m).

Definition with_history (m : InstanceMeta) (h : list history_entry) : InstanceMeta :=
  MkInstanceMeta (instance_id m) (customer_id m) (workflow_name m) (started_by m)
    (last_actor m) (status m) (last_node m) (start_time m) (end_time m) h.

(** The field assignments of [_update_meta_from_state], before the step
    history is looked at. *)
Definition copy_fields (m : InstanceMeta) (actor : string) (s : exec_state) : InstanceMeta :=
  let sm := meta_of s in
  MkInstanceMeta (instance_id m) (customer_id m) (workflow_name m) (started_by m)
    (Some actor)
    (default (status m) (sm_status sm))
    (if truthy_str (sm_last_node sm) then sm_last_node sm else last_node m)
    (if truthy_str (sm_start_time sm) && negb (truthy_str (start_time m))
     then sm_start_time sm else start_time m)
    (if truthy_str (sm_end_time sm) then sm_end_time sm else end_time m)
    (steps_history m).

(** [m.steps_history[-1]["node"] if m.steps_history else None] *)
Definition prev_node (m : InstanceMeta) : option string :=
  h_node <$> last (steps_history m).

(** [_update_meta_from_state] *)
Definition _update_meta_from_state (iid actor : string) (s : exec_state) : M InstanceMeta :=
  do item <- _get_meta iid;
  match item with
  | None => raise (ValueError "Missing meta")
  | Some m =>
      let ln := sm_last_node (meta_of s) in
      let m1 := copy_fields m actor s in
      do m2 <- (if truthy_str ln && negb (bool_decide (ln = prev_node m1))
                then do ts <- tick;
                     ret (with_history m1
                            (steps_history m1 ++
                               [HistoryEntry ts (default "" ln) actor (status m1)]))
                else ret m1);
      run _put_meta m2;
      ret m2
  end.

(** [update_and_return], the local helper of [_run] *)
Definition update_and_return (iid actor : string) (payload : summary)
    (state_for_meta : exec_state) : M summary :=
  do meta <- _update_meta_from_state iid actor state_for_meta;
  run _put_meta meta;
  ret payload.

(** [if not s.get("meta", {}).get("last_node"): s.setdefault("meta", {})["last_node"] = "Validate Request"] *)
Definition default_last_node (s : exec_state) : exec_state :=
  if truthy_str (sm_last_node (meta_of s)) then s
  else set_meta s (set_last_node (meta_of s) "Validate Request").

(** [s["meta"]["last_node"]] *)
Definition subscript_last_node (s : exec_state) : M string :=
  match st_meta s with
  | None => raise (KeyError "meta")
  | Some m =>
      match sm_last_node m with
      | None => raise (KeyError "last_node")
      | Some n => ret n
      end
  end.

(** [x in {"completed", "aborted"}] *)
Definition terminal_status (x : string) : bool :=
  String.eqb x "completed" || String.eqb x "aborted".

(** [_run].  The store keeps a reference to the dict it is given, so the
    [last_node] default written just after [store.put] is seen by the store
    as well: the model writes the defaulted dict. *)
Definition _run (iid : string) (state : exec_state) (actor : string) : M summary :=
  do c <- get_clock;
  match invoke c state with
  | None => raise GraphRecursionError
  | Some (c', state', Interrupt value) =>
      run set_clock c';
      let state2 := default_last_node state' in
      run put_state iid state2;
      do meta <- _update_meta_from_state iid actor state2;
      do meta <- (if terminal_status (status meta) then ret meta
                  else run _put_meta (with_status meta "paused");
                       ret (with_status meta "paused"));
      do node <- subscript_last_node state2;
      run _append_event iid "paused" (Some node) (status meta) (Some actor) (DPrompt value);
      update_and_return iid actor (SPaused value iid) state2
  | Some (c', _, Dict result) =>
      run set_clock c';
      let result2 := default_last_node result in
      run put_state iid result2;
      do meta <- _update_meta_from_state iid actor result2;
      do node <- subscript_last_node result2;
      let st := default (status meta) (sm_status (meta_of result2)) in
      let res := bag_of result2 !! "result" in
      if String.eqb st "completed" then
        run _put_meta (with_status meta "completed");
        run _append_event iid "completed" (Some node) "completed" (Some actor) (DResult res);
        update_and_return iid actor (SCompleted node res iid) result2
      else if String.eqb st "aborted" then
        run _put_meta (with_status meta "aborted");
        run _append_event iid "aborted" (Some node) "aborted" (Some actor) (DResult res);
        update_and_return iid actor (SAborted node res iid) result2
      else
        run _put_meta (with_status meta "in_progress");
        run _append_event iid "progressed" (Some node) "in_progress" (Some actor) DEmpty;
        update_and_return iid actor (SInProgress node iid) result2
  end.

(** [Engine.start] *)
Definition start (cust by_ : string) : M (string * summary) :=
  do iid <- fresh_uuid;
  do t <- tick;
  let state := ExecState iid cust self_workflow_name (Some ∅)
                 (Some (StateMeta (Some "in_progress") (Some t) None None)) in
  let meta := MkInstanceMeta iid cust self_workflow_name by_ (Some by_)
                "in_progress" None (Some t) None [] in
  run put_state iid state;
  run _put_meta meta;
  run _add_to_index iid;
  run _append_event iid "created" None (status meta) (Some by_) (DCustomer cust);
  do out <- _run iid state by_;
  ret (iid, out).

(** [Engine.resume]; [bag.update(updates)] lets the keys of [updates] win. *)
Definition resume (iid actor : string) (updates : gmap string value) : M summary :=
  do item <- get_state_item iid;
  match item with
  | None => raise (ValueError (String.append "No workflow found: " iid))
  | Some state =>
      let state1 := set_bag state (updates ∪ bag_of state) in
      run put_state iid state1;
      run _append_event iid "resume_command" (sm_last_node (meta_of state1))
            "in_progress" (Some actor) (DUpdates updates);
      _run iid state1 actor
  end.

(** ** Queries *)

Definition get_state (iid : string) (w : world) : option exec_state := state_ns w !! iid.
Definition get_meta (iid : string) (w : world) : option InstanceMeta := meta_ns w !! iid.
Definition history (iid : string) (w : world) : list event := default [] (events_ns w !! iid).

(** [list_instances]: a filter is applied only when it is truthy. *)
Definition rejects (wanted : option string) (field : string) : bool :=
  truthy_str wanted && negb (bool_decide (Some field = wanted)).

Fixpoint collect (w : world) (cust st by_ wf : option string) (ids : list string)
  : list InstanceMeta :=
  match ids with
  | [] => []
  | iid :: rest =>
      match meta_ns w !! iid with
      | None => collect w cust st by_ wf rest
      | Some m =>
          if rejects wf (workflow_name m) then collect w cust st by_ wf rest
          else if rejects cust (customer_id m) then collect w cust st by_ wf rest
          else if rejects st (status m) then collect w cust st by_ wf rest
          else if rejects by_ (started_by m) then collect w cust st by_ wf rest
          else m :: collect w cust st by_ wf rest
      end
  end.

(** [x.steps_history[-1]["ts"] if x.steps_history else ""] *)
Definition sort_key (x : InstanceMeta) : string :=
  match last (steps_history x) with
  | Some h => h_ts h
  | None => ""
  end.

(** [out.sort(key=..., reverse=True)]: Python's sort is stable, also when
    reversed, so an element stays ahead of the later ones with an equal key. *)
Fixpoint insert_desc (x : InstanceMeta) (l : list InstanceMeta) : list InstanceMeta :=
  match l with
  | [] => [x]
  | y :: l' =>
      if String.ltb (sort_key x) (sort_key y) then y :: insert_desc x l'
      else x :: y :: l'
  end.

Fixpoint sort_desc (l : list InstanceMeta) : list InstanceMeta :=
  match l with
  | [] => []
  | x :: l' => insert_desc x (sort_desc l')
  end.

Definition list_instances (cust st by_ wf : option string) (w : world)
  : list InstanceMeta :=
  let ids := default [] (index_ns w !! "instances") in
  sort_desc (collect w cust st by_ wf ids).

(** ** Calls and the stores they lead to *)

Inductive call :=
| Start (cust by_ : string)
| Resume (iid actor : string) (updates : gmap string value).

Definition exec (c : call) (w : world) : world :=
  match c with
  | Start cust by_ => (start cust by_ w).1
  | Resume iid actor updates => (resume iid actor updates w).1
  end.

(** The stores an engine can be in: an empty store, then any calls. *)
Inductive reachable : world → Prop :=
| reach_empty : reachable empty_world
| reach_step c w : reachable w → reachable (exec c w).


(** The id a [Start] is about to hand out is not in use. *)
Definition fresh_id (c : call) (w : world) : Prop :=
  match c with
  | Start _ _ => meta_ns w !! uuid4 (uuids w) = None
  | Resume _ _ _ => True
  end.

(** ** The run as a function of the bag

    Which node a run stops at, after how many nodes, and with which prompt,
    is decided by the bag alone; [settle] is the state the run leaves. *)

Definition asks (n : node) : option (string * string) :=
  match n with
  | ValidateRequest => Some ("validate", "Validate request? (yes/no)")
  | GatherClaimInfo => Some ("claim_details", "Provide claim details")
  | IdentifyAccounts => Some ("process_decision", "Decision? cancel / hold / suppress")
  | HoldRequest => Some ("hold_action", "Workflow on hold. Command: resume / abort")
  | ApplySuppression => Some ("proceed_fulfill", "Proceed to fulfill? (yes/no)")
  | CancelRequest => None
  | FulfillCase => None
  end.

Definition closes (n : node) : option (string * string) :=
  match n with
  | CancelRequest => Some ("aborted", "Workflow aborted.")
  | FulfillCase => Some ("completed", "Fulfilled and detection complete.")
  | _ => None
  end.

Fixpoint walk (fuel : nat) (n : node) (bag : gmap string value)
  : option (nat * node * option string) :=
  match fuel with
  | O => None
  | S fuel' =>
      match asks n with
      | Some (key, prompt) =>
          if has_key bag key then
            match guard n bag with
            | None => Some (1, n, None)
            | Some n' =>
                match walk fuel' n' bag with
                | Some (k, nf, pr) => Some (S k, nf, pr)
                | None => None
                end
            end
          else Some (1, n, Some prompt)
      | None => Some (1, n, None)
      end
  end.

Definition plan (bag : gmap string value) : option (nat * node * option string) :=
  walk recursion_limit entry_point bag.

Definition settle (c k : nat) (nf : node) (s : exec_state) : exec_state :=
  let m := meta_of s in
  let started := Some (default (now_iso c) (sm_start_time m)) in
  match closes nf with
  | Some (st, res) =>
      ExecState (st_instance_id s) (st_customer_id s) (st_workflow_name s)
        (Some (<["result" := VStr res]> (bag_of s)))
        (Some (StateMeta (Some st) started (Some (node_name nf)) (Some (now_iso (c + k)))))
  | None =>
      ExecState (st_instance_id s) (st_customer_id s) (st_workflow_name s)
        (Some (bag_of s))
        (Some (StateMeta (Some (default "in_progress" (sm_status m))) started
                         (Some (node_name nf)) (sm_end_time m)))
  end.

(** The clock after a run of [k] nodes that stops at [nf]. *)
Definition clock_after (c k : nat) (nf : node) : nat :=
  match closes nf with
  | Some _ => S (c + k)
  | None => c + k
  end.

Definition handed_back (pr : option string) (s : exec_state) : node_result :=
  match pr with
  | Some p => Interrupt p
  | None => Dict s
  end.

Definition summarize (iid : string) (nf : node) (pr : option string) (s : exec_state)
  : summary :=
  match pr with
  | Some p => SPaused p iid
  | None =>
      let st := default "" (sm_status (meta_of s)) in
      let res := bag_of s !! "result" in
      if String.eqb st "completed" then SCompleted (node_name nf) res iid
      else if String.eqb st "aborted" then SAborted (node_name nf) res iid
      else SInProgress (node_name nf) iid
  end.

(** ** What one run leaves in the store

    The metadata after [_update_meta_from_state], the event a run logs, and
    the store at the end of [_run], written out as functions of the store
    before the run and of where the run stops. *)

Definition appended (m : InstanceMeta) (actor : string) (s : exec_state) : bool :=
  truthy_str (sm_last_node (meta_of s)) &&
  negb (bool_decide (sm_last_node (meta_of s) = prev_node (copy_fields m actor s))).

Definition project (m : InstanceMeta) (actor : string) (s : exec_state) (ts : string)
  : InstanceMeta :=
  let m1 := copy_fields m actor s in
  if appended m actor s
  then with_history m1
         (steps_history m1 ++
            [HistoryEntry ts (default "" (sm_last_node (meta_of s))) actor (status m1)])
  else m1.

Definition run_event (ts iid actor : string) (mstatus : string) (p : summary) : event :=
  match p with
  | SPaused q _ =>
      Event ts iid "paused" None
        (if terminal_status mstatus then mstatus else "paused") (Some actor) (DPrompt q)
  | SCompleted n res _ => Event ts iid "completed" (Some n) "completed" (Some actor) (DResult res)
  | SAborted n res _ => Event ts iid "aborted" (Some n) "aborted" (Some actor) (DResult res)
  | SInProgress n _ => Event ts iid "progressed" (Some n) "in_progress" (Some actor) DEmpty
  end.

Definition with_node (e : event) (n : option string) : event :=
  Event (ev_ts e) (ev_instance_id e) (ev_event e) n (ev_status e) (ev_actor e) (ev_data e).

Definition run_world (w : world) (iid actor : string) (m : InstanceMeta)
    (k : nat) (nf : node) (pr : option string) (s : exec_state) : world :=
  let c1 := clock_after (clock w) k nf in
  let s1 := settle (clock w) k nf s in
  let m1 := project m actor s1 (now_iso c1) in
  let c2 := if appended m actor s1 then S c1 else c1 in
  let ev := with_node (run_event (now_iso c2) iid actor (status m1) (summarize iid nf pr s1))
                      (Some (node_name nf)) in
  World (<[iid := s1]> (state_ns w))
        (<[iid := m1]> (meta_ns w))
        (<[iid := default [] (events_ns w !! iid) ++ [ev]]> (events_ns w))
        (index_ns w) (S c2) (uuids w).

(** The store [start] hands to its first run. *)
Definition start_state (w : world) (cust : string) : exec_state :=
  ExecState (uuid4 (uuids w)) cust self_workflow_name (Some ∅)
    (Some (StateMeta (Some "in_progress") (Some (now_iso (clock w))) None None)).

Definition start_meta (w : world) (cust by_ : string) : InstanceMeta :=
  MkInstanceMeta (uuid4 (uuids w)) cust self_workflow_name by_ (Some by_)
    "in_progress" None (Some (now_iso (clock w))) None [].

Definition add_index (iid : string) (ix : gmap string (list string))
  : gmap string (list string) :=
  if bool_decide (iid ∈ default [] (ix !! "instances")) then ix
  else <["instances" := default [] (ix !! "instances") ++ [iid]]> ix.

Definition start_world (w : world) (cust by_ : string) : world :=
  let iid := uuid4 (uuids w) in
  World (<[iid := start_state w cust]> (state_ns w))
        (<[iid := start_meta w cust by_]> (meta_ns w))
        (<[iid := default [] (events_ns w !! iid) ++
                  [Event (now_iso (S (clock w))) iid "created" None "in_progress"
                         (Some by_) (DCustomer cust)]]> (events_ns w))
        (add_index iid (index_ns w)) (S (S (clock w))) (S (uuids w)).

(** The store [resume] hands to its run. *)
Definition resume_state (s : exec_state) (updates : gmap string value) : exec_state :=
  set_bag s (updates ∪ bag_of s).

Definition resume_world (w : world) (iid actor : string) (s : exec_state)
    (updates : gmap string value) : world :=
  World (<[iid := resume_state s updates]> (state_ns w)) (meta_ns w)
        (<[iid := default [] (events_ns w !! iid) ++
                  [Event (now_iso (clock w)) iid "resume_command"
                         (sm_last_node (meta_of s)) "in_progress" (Some actor)
                         (DUpdates updates)]]> (events_ns w))
        (index_ns w) (S (clock w)) (uuids w).

End Workflow.

(** ** Vocabulary of the statements *)

(** How many guards can still follow a node. *)
Definition rank (n : node) : nat :=
  match n with
  | ValidateRequest => 5
  | GatherClaimInfo => 4
  | IdentifyAccounts => 3
  | HoldRequest => 2
  | ApplySuppression => 1
  | CancelRequest => 0
  | FulfillCase => 0
  end.

Definition first_prompt : string := "Validate request? (yes/no)".

(** The kind of event a run logs for the summary it returns. *)
Definition event_kind (p : summary) : string :=
  match p with
  | SPaused _ _ => "paused"
  | SCompleted _ _ _ => "completed"
  | SAborted _ _ _ => "aborted"
  | SInProgress _ _ => "progressed"
  end.

Definition terminal_kind (k : string) : bool :=
  String.eqb k "completed" || String.eqb k "aborted".

(** No two neighbours of a step history name the same node. *)
Definition no_repeat (h : list history_entry) : Prop :=
  ∀ i a b, h !! i = Some a → h !! S i = Some b → h_node a ≠ h_node b.

(** A run from this state stops where the state already stands and adds
    nothing to the bag. *)
Definition at_rest (s : exec_state) : Prop :=
  ∃ k nf pr, plan (bag_of s) = Some (k, nf, pr) ∧
    st_bag s = Some (bag_of s) ∧
    (match closes nf with
     | Some (_, res) => <["result" := VStr res]> (bag_of s)
     | None => bag_of s
     end) = bag_of s ∧
    sm_last_node (meta_of s) = Some (node_name nf).

(** What every call leaves true of the store. *)
Definition consistent (w : world) : Prop :=
  (∀ iid s, state_ns w !! iid = Some s →
     at_rest s ∧
     ∃ m, meta_ns w !! iid = Some m ∧
          sm_status (meta_of s) = Some (status m) ∧
          sm_last_node (meta_of s) = last_node m) ∧
  (∀ iid m, meta_ns w !! iid = Some m →
     instance_id m = iid ∧ is_Some (state_ns w !! iid) ∧
     no_repeat (steps_history m)).

(** Everything [consistent] says, except about the state of [iid], which a
    call is in the middle of rewriting. *)
Definition consistent_but (iid : string) (w : world) : Prop :=
  (∀ iid' s, iid' ≠ iid → state_ns w !! iid' = Some s →
     at_rest s ∧
     ∃ m, meta_ns w !! iid' = Some m ∧
          sm_status (meta_of s) = Some (status m) ∧
          sm_last_node (meta_of s) = last_node m) ∧
  (∀ iid' m, meta_ns w !! iid' = Some m →
     instance_id m = iid' ∧ (iid' ≠ iid → is_Some (state_ns w !! iid')) ∧
     no_repeat (steps_history m)).

(** Exact match of a filter that was supplied; [None] and the empty string
    count as not supplied. *)
Definition exact_match (wanted : option string) (field : string) : bool :=
  match wanted with
  | None => true
  | Some v => if String.eqb v "" then true else bool_decide (field = v)
  end.

Definition selected (cust st by_ wf : option string) (m : InstanceMeta) : bool :=
  exact_match cust (customer_id m) && exact_match st (status m) &&
  exact_match by_ (started_by m) && exact_match wf (workflow_name m).


(** The bag and status a run leaves, given where it stops. *)
Definition bag_after (nf : node) (bag : gmap string value) : gmap string value :=
  match closes nf with
  | Some (_, res) => <["result" := VStr res]> bag
  | None => bag
  end.

Definition status_after (nf : node) (before : option string) : string :=
  match closes nf with
  | Some (st, _) => st
  | None => default "in_progress" before
  end.

(** The terminal events of an event log. *)
Definition terminal_events (l : list event) : list event :=
  filter (λ e, terminal_kind (ev_event e) = true) l.

(** A run over [bag] gets as far as node [n]. *)
Inductive reaches (bag : gmap string value) : node → Prop :=
| reaches_entry : reaches bag entry_point
| reaches_next n n' key prompt :
    reaches bag n → asks n = Some (key, prompt) → has_key bag key = true →
    guard n bag = Some n' → reaches bag n'.

(** The run gets to [n], finds the key [n] asks for, and no branch of the
    guard of [n] takes its value. *)
Definition unmatched_at (bag : gmap string value) (n : node) : Prop :=
  reaches bag n ∧
  ∃ key prompt v, asks n = Some (key, prompt) ∧ bag !! key = Some v ∧ guard n bag = None.

(** The instance a call works on. *)
Definition target (uuid4 : nat → string) (c : call) (w : world) : string :=
  match c with
  | Start _ _ => uuid4 (uuids w)
  | Resume iid _ _ => iid
  end.

Definition event_kinds (l : list event) : list string := ev_event <$> l.

(** ** A concrete clock and id generator, for running the engine *)

Fixpoint stamp (n : nat) : string :=
  match n with
  | O => "t"
  | S n' => String.append "0" (stamp n')
  end.

Definition demo_clock (n : nat) : string := stamp n.
Definition demo_uuid (n : nat) : string := String.append "i" (stamp n).

(** A state in which the claim details have been supplied. *)
Definition gather_demo : exec_state :=
  ExecState "i" "C1" "ClaimWorkflow"
    (Some {["validate" := VStr "yes"; "claim_details" := VStr "x"]}) None.
Definition gather_demo_after : exec_state :=
  (gather_claim_info demo_clock 0 gather_demo).1.2.

(** Two runs of the engine with the concrete clock: one cancelled at the
    first question and resumed again, one that is aborted at the last
    question and then resumed with the opposite answer. *)
Definition demo_id : string := demo_uuid 0.
Definition demo_exec (c : call) (w : world) : world :=
  exec demo_clock demo_uuid "ClaimWorkflow" c w.
Definition demo_started : world := demo_exec (Start "C1" "u1") empty_world.
Definition demo_refused : world :=
  demo_exec (Resume demo_id "u2" {["validate" := VStr "no"]}) demo_started.
Definition demo_refused_again : world :=
  demo_exec (Resume demo_id "u3" ∅) demo_refused.
Definition demo_declined : world :=
  demo_exec (Resume demo_id "u5" {["proceed_fulfill" := VStr "no"]})
    (demo_exec (Resume demo_id "u4" {["process_decision" := VStr "suppress"]})
       (demo_exec (Resume demo_id "u3" {["claim_details" := VStr "x"]})
          (demo_exec (Resume demo_id "u2" {["validate" := VStr "yes"]}) demo_started))).
Definition demo_reversed : world :=
  demo_exec (Resume demo_id "u6" {["proceed_fulfill" := VStr "yes"]}) demo_declined.

(** What the store holds for the demo instance once it is started. *)
Definition demo_started_state : exec_state :=
  default (ExecState "" "" "" None None) (state_ns demo_started !! demo_id).
Definition demo_started_meta : InstanceMeta :=
  default (MkInstanceMeta "" "" "" "" None "" None None None [])
          (meta_ns demo_started !! demo_id).

(** ** The HTTP layer ([api.py]) *)

(** What a request handler can raise: its own [HTTPException], or whatever
    the engine raises underneath it. *)
Inductive api_error :=
| HTTPException (status_code : nat) (detail : string)
| EngineError (e : exn).

Definition allowed_steps : list string := ["Gather Claim Info"; "Validate Request"].

(** [x in allowed_steps] for an [Optional[str]] *)
Definition in_allowed (x : option string) : bool :=
  match x with
  | Some n => bool_decide (n ∈ allowed_steps)
  | None => false
  end.

(** [f"{x}"] for an [Optional[str]] *)
Definition fmt_opt (x : option string) : string :=
  match x with
  | Some n => n
  | None => "None"
  end.

(** [provide_human_input]; the body carries [actor] and [updates]. *)
Definition provide_human_input (now_iso : nat → string) (iid actor : string)
    (updates : gmap string value) (w : world)
  : world * (api_error + (string * summary)) :=
  match get_meta iid w with
  | None => (w, inl (HTTPException 404 "Workflow not found"))
  | Some meta =>
      if negb (in_allowed (last_node meta))
      then (w, inl (HTTPException 400
                      (String.append "Current step '"
                         (String.append (fmt_opt (last_node meta))
                            "' is not allowed via API"))))
      else match resume now_iso iid actor updates w with
           | (w', inr result) => (w', inr (iid, result))
           | (w', inl e) => (w', inl (EngineError e))
           end
  end.

(** [pending_human_steps] *)
Definition pending_human_steps (w : world) : list InstanceMeta :=
  List.filter (λ m, in_allowed (last_node m))
    (list_instances None (Some "paused") None None w).

(** ** More vocabulary *)

Definition known_status (x : string) : Prop :=
  x = "in_progress" ∨ x = "completed" ∨ x = "aborted".

(** [idx] as [_add_to_index] and [list_instances] read it. *)
Definition index_of (w : world) : list string :=
  default [] (index_ns w !! "instances").

Definition named_node (x : string) : Prop := ∃ n, x = node_name n.

(** A store that holds a state for the instance ["x"] and no metadata. *)
Definition orphan_world : world :=
  World {["x" := ExecState "x" "C1" "ClaimWorkflow" (Some ∅) None]} ∅ ∅ ∅ 0 0.

(** The answers that take a run to Fulfill: validated, claim details
    given, the decision [suppress] (or [hold] followed by [resume]), and
    the go-ahead. *)
Definition answers_to_fulfil (bag : gmap string value) : Prop :=
  get_is bag "validate" "yes" = true ∧
  get_truthy bag "claim_details" = true ∧
  (get_is bag "process_decision" "suppress" = true ∨
   (get_is bag "process_decision" "hold" = true ∧
    get_is bag "hold_action" "resume" = true)) ∧
  get_is bag "proceed_fulfill" "yes" = true.

(** The step history is not empty, its last entry names the node the
    metadata is at, and every entry names a node of the graph. *)
Definition history_tip (m : InstanceMeta) : Prop :=
  prev_node m = last_node m ∧
  (∃ n, last_node m = Some (node_name n)) ∧
  Forall (λ h, named_node (h_node h)) (steps_history m).

(** The log of an instance: it opens with the [created] event, every event
    carries the instance's id, and events come in pairs. *)
Definition well_logged (iid : string) (l : list event) : Prop :=
  (∃ e rest, l = e :: rest ∧ ev_event e = "created") ∧
  Forall (λ e, ev_instance_id e = iid) l ∧
  Nat.Even (List.length l).

(** ** The dashboard's diagram ([ui.py]) *)

(** The [node_ids] table of [workflow_mermaid]. *)
Definition node_ids : list (string * string) :=
  [("Validate Request", "A");
   ("Gather Claim Info", "B");
   ("Identify Accounts & Process Decision", "D");
   ("Cancel CWD Request", "C");
   ("Hold Request", "E");
   ("Apply Temporary Suppression", "F");
   ("Fulfill Case and Detect", "G");
   ("END", "H")].

(** [node_ids[name]] when [name in node_ids] *)
Definition node_id (name : string) : option string :=
  snd <$> List.find (λ p, String.eqb (fst p) name) node_ids.

Definition visited_style (id : string) : string :=
  String.append "style "
    (String.append id " fill:#e3f2fd,stroke:#1565c0,stroke-width:2px;").

Definition current_style (id : string) : string :=
  String.append "style "
    (String.append id " fill:#ffecb3,stroke:#ff6f00,stroke-width:4px;").

(** [meta.get("last_node") or (meta["steps_history"][0]["node"] if
    meta.get("steps_history") else "Validate Request")] *)
Definition current_node (m : InstanceMeta) : string :=
  match last_node m with
  | Some n => if String.eqb n "" then
                match steps_history m with
                | h :: _ => h_node h
                | [] => "Validate Request"
                end
              else n
  | None => match steps_history m with
            | h :: _ => h_node h
            | [] => "Validate Request"
            end
  end.

(** The list [visited_styles] at the end of [workflow_mermaid]. *)
Definition visited_styles (m : InstanceMeta) : list string :=
  omap (λ h, visited_style <$> node_id (h_node h)) (steps_history m) ++
  match node_id (current_node m) with
  | Some id => [current_style id]
  | None => []
  end.

Definition nl : string := String (Ascii.ascii_of_nat 10) "".

(** [sep.join(l)] *)
Fixpoint join (sep : string) (l : list string) : string :=
  match l with
  | [] => ""
  | [x] => x
  | x :: rest => String.append x (String.append sep (join sep rest))
  end.

Definition diagram_lines : list string :=
  ["";
   "graph TD";
   "    A[Validate Request] -->|yes| B[Gather Claim Info]";
   "    A -->|no| C[Cancel CWD Request]";
   "    B --> D[Identify Accounts & Process Decision]";
   "    D -->|cancel| C";
   "    D -->|hold| E[Hold Request]";
   "    D -->|suppress| F[Apply Temporary Suppression]";
   "    E -->|resume| F";
   "    E -->|abort| C";
   "    F -->|yes| G[Fulfill Case and Detect]";
   "    F -->|no| C";
   "    G --> H[END]";
   "    C --> H"].

(** [workflow_mermaid]: the fixed diagram, then the style lines joined by a
    newline and four spaces, then a newline. *)
Definition workflow_mermaid (m : InstanceMeta) : string :=
  String.append (join nl diagram_lines)
    (String.append nl
       (String.append "    "
          (String.append (join (String.append nl "    ") (visited_styles m)) nl))).

(** What the dashboard does before drawing: a missing [last_node] is set to
    Validate Request. *)
Definition dashboard_meta (m : InstanceMeta) : InstanceMeta :=
  if truthy_str (last_node m) then m
  else MkInstanceMeta (instance_id m) (customer_id m) (workflow_name m) (started_by m)
         (last_actor m) (status m) (Some "Validate Request") (start_time m)
         (end_time m) (steps_history m).

(** Inputs for running the further properties on the demo store. *)
Definition demo_yes : gmap string value := {["validate" := VStr "yes"]}.
Definition demo_no : gmap string value := {["validate" := VStr "no"]}.
Definition demo_all_answers : gmap string value :=
  {["validate" := VStr "yes"; "claim_details" := VStr "x";
    "process_decision" := VStr "suppress"; "proceed_fulfill" := VStr "yes"]}.
Definition demo_details : gmap string value :=
  {["validate" := VStr "yes"; "claim_details" := VStr "x"]}.

(** What the store holds for the demo instance once it is refused. *)
Definition demo_refused_state : exec_state :=
  default (ExecState "" "" "" None None) (state_ns demo_refused !! demo_id).
Definition demo_refused_meta : InstanceMeta :=
  default (MkInstanceMeta "" "" "" "" None "" None None None [])
          (meta_ns demo_refused !! demo_id).

(** * Properties *)

Section Properties.

Variable now_iso : nat → string.
Variable uuid4 : nat → string.
Variable wf_name : string.

(** ** The graph run *)

Lemma bag_of_ensure_defaults t s : bag_of (ensure_defaults t s) = bag_of s.
Proof. reflexivity. Qed.

Lemma settle_shift c k nf s name :
  settle now_iso (S c) k nf
    (set_meta (ensure_defaults (now_iso c) s)
       (set_last_node (meta_of (ensure_defaults (now_iso c) s)) name))
  = settle now_iso c (S k) nf s.
Proof.
  unfold settle. destruct (closes nf) as [[st res]|]; simpl;
    rewrite ?Nat.add_succ_r; reflexivity.
Qed.

Lemma clock_after_shift c k nf : clock_after (S c) k nf = clock_after c (S k) nf.
Proof. unfold clock_after. destruct (closes nf); simpl; rewrite ?Nat.add_succ_r; reflexivity. Qed.

(** One asking node, seen through [asks]. *)
Lemma ask_step name key prompt c s :
  ask now_iso name key prompt c s =
  let s2 := set_meta (ensure_defaults (now_iso c) s)
              (set_last_node (meta_of (ensure_defaults (now_iso c) s)) name) in
  (S c, s2, if has_key (bag_of s) key then Dict s2 else Interrupt prompt).
Proof.
  unfold ask. cbv zeta.
  change (bag_of (set_meta _ _)) with (bag_of s).
  destruct (has_key (bag_of s) key); reflexivity.
Qed.

(** The traversal is the walk over the bag, and leaves the settled state. *)
Lemma traverse_walk fuel : ∀ n c s,
  traverse now_iso fuel n c s =
  match walk fuel n (bag_of s) with
  | None => None
  | Some (k, nf, pr) =>
      Some (clock_after c k nf, settle now_iso c k nf s,
            handed_back pr (settle now_iso c k nf s))
  end.
Proof.
  induction fuel as [|fuel IH]; intros n c s; [reflexivity|].
  destruct n; cbn [traverse walk asks node_fn];
    unfold validate_request, gather_claim_info, identify_accounts, hold_request,
      apply_suppression, cancel_request, fulfill_case;
    try (rewrite ask_step; cbv zeta;
         destruct (has_key (bag_of s) _); cbn [route];
         [ change (bag_of (set_meta _ _)) with (bag_of s);
           match goal with |- context [guard ?n ?b] => destruct (guard n b) end;
           [ rewrite IH; change (bag_of (set_meta _ _)) with (bag_of s);
             destruct (walk fuel _ _) as [[[k nf] pr]|]; [|reflexivity];
             rewrite settle_shift, clock_after_shift; reflexivity
           | unfold settle, clock_after; simpl; rewrite Nat.add_1_r; reflexivity ]
         | unfold settle, clock_after; simpl; rewrite Nat.add_1_r; reflexivity ]).
  - unfold finish, settle, clock_after. simpl. rewrite Nat.add_1_r. reflexivity.
  - unfold finish, settle, clock_after. simpl. rewrite Nat.add_1_r. reflexivity.
Qed.

Lemma node_name_truthy n : truthy_str (Some (node_name n)) = true.
Proof. destruct n; reflexivity. Qed.

Lemma settle_last_node c k nf s :
  sm_last_node (meta_of (settle now_iso c k nf s)) = Some (node_name nf).
Proof. unfold settle. destruct (closes nf) as [[? ?]|]; reflexivity. Qed.

Lemma settle_meta c k nf s :
  ∃ sm, st_meta (settle now_iso c k nf s) = Some sm ∧
        sm_last_node sm = Some (node_name nf).
Proof. unfold settle. destruct (closes nf) as [[? ?]|]; eexists; split; reflexivity. Qed.

Lemma settle_status c k nf s :
  sm_status (meta_of (settle now_iso c k nf s)) =
  Some (match closes nf with
        | Some (st, _) => st
        | None => default "in_progress" (sm_status (meta_of s))
        end).
Proof. unfold settle. destruct (closes nf) as [[? ?]|]; reflexivity. Qed.

Lemma settle_bag c k nf s :
  st_bag (settle now_iso c k nf s) =
  Some (match closes nf with
        | Some (_, res) => <["result" := VStr res]> (bag_of s)
        | None => bag_of s
        end).
Proof. unfold settle. destruct (closes nf) as [[? ?]|]; reflexivity. Qed.

Lemma default_last_node_settle c k nf s :
  default_last_node (settle now_iso c k nf s) = settle now_iso c k nf s.
Proof.
  unfold default_last_node. rewrite settle_last_node, node_name_truthy. reflexivity.
Qed.

Lemma subscript_settle c k nf s w :
  subscript_last_node (settle now_iso c k nf s) w = (w, inr (node_name nf)).
Proof.
  unfold subscript_last_node. destruct (settle_meta c k nf s) as (sm & -> & ->).
  reflexivity.
Qed.

(** ** The metadata projector *)

Lemma instance_id_project m actor s ts : instance_id (project m actor s ts) = instance_id m.
Proof. unfold project. destruct (appended m actor s); reflexivity. Qed.

Lemma update_meta_spec iid actor s w m :
  meta_ns w !! iid = Some m → instance_id m = iid →
  _update_meta_from_state now_iso iid actor s w =
  (World (state_ns w) (<[iid := project m actor s (now_iso (clock w))]> (meta_ns w))
         (events_ns w) (index_ns w)
         (if appended m actor s then S (clock w) else clock w) (uuids w),
   inr (project m actor s (now_iso (clock w)))).
Proof.
  intros Hm Hid.
  unfold _update_meta_from_state, bind, _get_meta, get_meta_item. rewrite Hm.
  unfold project, appended.
  destruct (truthy_str (sm_last_node (meta_of s)) &&
            negb (bool_decide (sm_last_node (meta_of s) = prev_node (copy_fields m actor s))));
    cbn; rewrite Hid; reflexivity.
Qed.

Lemma prev_node_project m actor s ts :
  truthy_str (sm_last_node (meta_of s)) = true →
  prev_node (project m actor s ts) = sm_last_node (meta_of s).
Proof.
  intros Ht. unfold project, appended. rewrite Ht. cbn [andb].
  destruct (bool_decide_reflect
              (sm_last_node (meta_of s) = prev_node (copy_fields m actor s))) as [He|Hne];
    cbn [negb].
  - symmetry. exact He.
  - unfold prev_node. cbn. rewrite last_snoc. cbn.
    destruct (sm_last_node (meta_of s)); [reflexivity|discriminate].
Qed.

(** Projecting a second time from the same state changes nothing, whatever
    status was written in between. *)
Lemma project_again m actor s ts ts' x st :
  sm_status (meta_of s) = Some st →
  truthy_str (sm_last_node (meta_of s)) = true →
  project (with_status (project m actor s ts) x) actor s ts' = project m actor s ts
  ∧ appended (with_status (project m actor s ts) x) actor s = false.
Proof.
  intros Hst Ht.
  assert (Hprev : prev_node (copy_fields (with_status (project m actor s ts) x) actor s)
                  = sm_last_node (meta_of s)).
  { rewrite <- (prev_node_project m actor s ts Ht). reflexivity. }
  assert (Happ : appended (with_status (project m actor s ts) x) actor s = false).
  { unfold appended. rewrite Hprev, Ht. rewrite bool_decide_eq_true_2; reflexivity. }
  split; [|exact Happ].
  unfold project at 1. rewrite Happ.
  unfold project. destruct (appended m actor s);
    unfold copy_fields, with_status, with_history; cbn; rewrite Hst, Ht; cbn;
    destruct (truthy_str (sm_start_time (meta_of s))) eqn:E1;
    destruct (truthy_str (start_time m)) eqn:E2; cbn; rewrite ?E1, ?E2; cbn;
    destruct (truthy_str (sm_end_time (meta_of s))) eqn:E3; cbn; rewrite ?E3;
    reflexivity.
Qed.


Lemma update_and_return_spec iid actor payload s w m ts x st :
  meta_ns w !! iid = Some (with_status (project m actor s ts) x) →
  instance_id m = iid →
  sm_status (meta_of s) = Some st →
  truthy_str (sm_last_node (meta_of s)) = true →
  update_and_return now_iso iid actor payload s w =
  (World (state_ns w) (<[iid := project m actor s ts]> (meta_ns w))
         (events_ns w) (index_ns w) (clock w) (uuids w), inr payload).
Proof.
  intros Hm Hid Hst Hln.
  destruct (project_again m actor s ts (now_iso (clock w)) x st Hst Hln) as [Hp Ha].
  unfold update_and_return. unfold bind at 1.
  erewrite update_meta_spec; [|exact Hm|cbn; rewrite instance_id_project; exact Hid].
  rewrite Hp, Ha. unfold bind, _put_meta, put_meta_item, ret. cbn.
  rewrite instance_id_project, Hid, insert_insert_eq. reflexivity.
Qed.

Lemma with_status_same m : with_status m (status m) = m.
Proof. destruct m; reflexivity. Qed.

Lemma run_spec iid s actor w m k nf pr :
  meta_ns w !! iid = Some m → instance_id m = iid →
  plan (bag_of s) = Some (k, nf, pr) →
  _run now_iso iid s actor w =
  (run_world now_iso w iid actor m k nf pr s,
   inr (summarize iid nf pr (settle now_iso (clock w) k nf s))).
Proof.
  intros Hm Hid Hplan.
  unfold _run, invoke. unfold bind at 1. unfold get_clock.
  rewrite traverse_walk. unfold plan in Hplan. rewrite Hplan.
  unfold run_world.
  rewrite !default_last_node_settle.
  pose proof (settle_status (clock w) k nf s) as Hst.
  pose proof (settle_last_node (clock w) k nf s) as Hln0.
  pose proof (subscript_settle (clock w) k nf s) as Hsub.
  pose proof (default_last_node_settle (clock w) k nf s) as Hdl.
  set (s1 := settle now_iso (clock w) k nf s) in *.
  set (c1 := clock_after (clock w) k nf).
  assert (Hln : truthy_str (sm_last_node (meta_of s1)) = true).
  { rewrite Hln0. apply node_name_truthy. }
  destruct pr as [p|]; cbn [handed_back summarize].
  - unfold bind at 1. unfold set_clock at 1.
    unfold bind at 1. unfold put_state at 1. cbn [state_ns meta_ns events_ns index_ns clock uuids].
    unfold bind at 1.
    erewrite update_meta_spec; [|cbn; exact Hm|exact Hid].
    cbn [state_ns meta_ns events_ns index_ns clock uuids].
    set (m1 := project m actor s1 (now_iso c1)).
    set (c2 := if appended m actor s1 then S c1 else c1).
    assert (Hid1 : instance_id m1 = iid).
    { unfold m1. rewrite instance_id_project. exact Hid. }
    unfold bind at 1.
    destruct (terminal_status (status m1)) eqn:Et.
    + unfold ret at 1. unfold bind at 1. rewrite Hsub.
      unfold bind at 1. unfold _append_event, bind, get_events_item, tick, put_events.
      cbn [state_ns meta_ns events_ns index_ns clock uuids].
      erewrite update_and_return_spec with (m := m) (ts := now_iso c1) (x := status m1);
        [| cbn; fold m1; rewrite with_status_same; apply lookup_insert_eq
         | exact Hid | exact Hst | exact Hln ].
      cbn [state_ns meta_ns events_ns index_ns clock uuids].
      fold m1. rewrite insert_insert_eq. unfold run_event, with_node. cbn. rewrite Et.
      reflexivity.
    + unfold bind at 1. unfold _put_meta at 1, put_meta_item at 1. unfold ret at 1.
      cbn [state_ns meta_ns events_ns index_ns clock uuids].
      unfold bind at 1. rewrite Hsub.
      unfold bind at 1. unfold _append_event, bind, get_events_item, tick, put_events.
      cbn [state_ns meta_ns events_ns index_ns clock uuids].
      erewrite update_and_return_spec with (m := m) (ts := now_iso c1) (x := "paused");
        [| cbn; rewrite Hid1; apply lookup_insert_eq
         | exact Hid | exact Hst | exact Hln ].
      cbn [state_ns meta_ns events_ns index_ns clock uuids].
      cbn [instance_id with_status]. rewrite ?Hid1. rewrite !insert_insert_eq.
      unfold run_event, with_node. cbn. rewrite Et.
      reflexivity.
  - cbv beta iota. rewrite Hdl.
    unfold bind at 1. unfold set_clock at 1.
    unfold bind at 1. unfold put_state at 1. cbn [state_ns meta_ns events_ns index_ns clock uuids].
    unfold bind at 1.
    erewrite update_meta_spec; [|cbn; exact Hm|exact Hid].
    cbn [state_ns meta_ns events_ns index_ns clock uuids].
    set (m1 := project m actor s1 (now_iso c1)).
    set (c2 := if appended m actor s1 then S c1 else c1).
    assert (Hid1 : instance_id m1 = iid).
    { unfold m1. rewrite instance_id_project. exact Hid. }
    unfold bind at 1. rewrite Hsub.
    rewrite Hst. cbn [from_option id].
    set (st := match closes nf with
               | Some (st, _) => st
               | None => default "in_progress" (sm_status (meta_of s))
               end) in *.
    destruct (String.eqb st "completed"); [|destruct (String.eqb st "aborted")].
    all: unfold bind at 1; unfold _put_meta at 1, put_meta_item at 1;
      cbn [state_ns meta_ns events_ns index_ns clock uuids];
      unfold bind at 1; unfold _append_event, bind, get_events_item, tick, put_events;
      cbn [state_ns meta_ns events_ns index_ns clock uuids];
      (erewrite update_and_return_spec with (m := m) (ts := now_iso c1);
        [| cbn; rewrite Hid1; apply lookup_insert_eq
         | exact Hid | exact Hst | exact Hln ]);
      cbn [state_ns meta_ns events_ns index_ns clock uuids];
      cbn [instance_id with_status]; rewrite ?Hid1; rewrite !insert_insert_eq;
      reflexivity.
Qed.

(** ** [start] and [resume] written out *)

Lemma start_spec cust by_ w :
  start now_iso uuid4 wf_name cust by_ w =
  (run_world now_iso (start_world now_iso uuid4 wf_name w cust by_)
     (uuid4 (uuids w)) by_ (start_meta now_iso uuid4 wf_name w cust by_)
     1 ValidateRequest (Some first_prompt) (start_state now_iso uuid4 wf_name w cust),
   inr (uuid4 (uuids w), SPaused first_prompt (uuid4 (uuids w)))).
Proof.
  unfold start. unfold bind at 1. unfold fresh_uuid at 1.
  unfold bind at 1. unfold tick at 1.
  cbn [state_ns meta_ns events_ns index_ns clock uuids].
  unfold bind at 1. unfold put_state at 1.
  unfold bind at 1. unfold _put_meta at 1, put_meta_item at 1.
  cbn [state_ns meta_ns events_ns index_ns clock uuids instance_id].
  unfold bind at 1.
  assert (Hix : ∀ w0, _add_to_index (uuid4 (uuids w)) w0 =
     (World (state_ns w0) (meta_ns w0) (events_ns w0)
            (add_index (uuid4 (uuids w)) (index_ns w0)) (clock w0) (uuids w0), inr tt)).
  { intros w0. unfold _add_to_index, bind, get_index_item, add_index, put_index, ret.
    destruct (bool_decide _); [destruct w0|]; reflexivity. }
  rewrite Hix. cbn [state_ns meta_ns events_ns index_ns clock uuids].
  unfold bind at 1. unfold _append_event, bind, get_events_item, tick, put_events.
  cbn [state_ns meta_ns events_ns index_ns clock uuids status].
  erewrite run_spec with (m := start_meta now_iso uuid4 wf_name w cust by_)
                         (k := 1) (nf := ValidateRequest) (pr := Some first_prompt);
    [| cbn; apply lookup_insert_eq | reflexivity | reflexivity ].
  reflexivity.
Qed.

Lemma resume_spec iid actor updates w s m k nf pr :
  state_ns w !! iid = Some s →
  meta_ns w !! iid = Some m → instance_id m = iid →
  plan (updates ∪ bag_of s) = Some (k, nf, pr) →
  resume now_iso iid actor updates w =
  (run_world now_iso (resume_world now_iso w iid actor s updates) iid actor m k nf pr
     (resume_state s updates),
   inr (summarize iid nf pr
          (settle now_iso (S (clock w)) k nf (resume_state s updates)))).
Proof.
  intros Hs Hm Hid Hplan.
  unfold resume. unfold bind at 1. unfold get_state_item at 1. rewrite Hs.
  unfold bind at 1. unfold put_state at 1.
  unfold bind at 1. unfold _append_event, bind, get_events_item, tick, put_events.
  cbn [state_ns meta_ns events_ns index_ns clock uuids].
  erewrite run_spec with (m := m) (k := k) (nf := nf) (pr := pr);
    [| cbn; exact Hm | exact Hid | exact Hplan ].
  reflexivity.
Qed.

Lemma resume_unknown iid actor updates w :
  state_ns w !! iid = None →
  resume now_iso iid actor updates w =
  (w, inl (ValueError (String.append "No workflow found: " iid))).
Proof.
  intros Hs. unfold resume, bind, get_state_item. rewrite Hs. reflexivity.
Qed.


(** ** The walk reads five keys of the bag and stops within the limit *)

Lemma has_key_result v bag k :
  k ≠ "result" → has_key (<["result" := v]> bag) k = has_key bag k.
Proof. intros H. unfold has_key. rewrite lookup_insert_ne by congruence. reflexivity. Qed.

Lemma get_is_result v bag k lit :
  k ≠ "result" → get_is (<["result" := v]> bag) k lit = get_is bag k lit.
Proof. intros H. unfold get_is. rewrite lookup_insert_ne by congruence. reflexivity. Qed.

Lemma get_truthy_result v bag k :
  k ≠ "result" → get_truthy (<["result" := v]> bag) k = get_truthy bag k.
Proof. intros H. unfold get_truthy. rewrite lookup_insert_ne by congruence. reflexivity. Qed.

Lemma guard_result v bag n : guard n (<["result" := v]> bag) = guard n bag.
Proof.
  destruct n; cbn [guard];
    rewrite ?get_is_result, ?get_truthy_result by discriminate; reflexivity.
Qed.

Lemma walk_result v bag fuel : ∀ n, walk fuel n (<["result" := v]> bag) = walk fuel n bag.
Proof.
  induction fuel as [|fuel IH]; intros n; [reflexivity|].
  cbn [walk]. destruct (asks n) as [[key prompt]|] eqn:Ea; [|reflexivity].
  assert (key ≠ "result") by (destruct n; cbn in Ea; congruence).
  rewrite has_key_result, guard_result by assumption.
  destruct (has_key bag key); [|reflexivity].
  destruct (guard n bag); [|reflexivity]. rewrite IH. reflexivity.
Qed.

Lemma guard_rank n bag n' : guard n bag = Some n' → rank n' < rank n.
Proof.
  destruct n; cbn [guard]; intros H;
    repeat match type of H with
           | (if ?b then _ else _) = _ => destruct b
           end;
    try discriminate; injection H as <-; cbn; lia.
Qed.

Lemma walk_total fuel : ∀ n bag, rank n < fuel → is_Some (walk fuel n bag).
Proof.
  induction fuel as [|fuel IH]; intros n bag Hr; [lia|].
  cbn [walk]. destruct (asks n) as [[key prompt]|]; [|eauto].
  destruct (has_key bag key); [|eauto].
  destruct (guard n bag) as [n'|] eqn:Eg; [|eauto].
  apply guard_rank in Eg.
  destruct (IH n' bag ltac:(lia)) as [[[k nf] pr] ->]. eauto.
Qed.

Lemma plan_total bag : ∃ k nf pr, plan bag = Some (k, nf, pr).
Proof.
  destruct (walk_total recursion_limit entry_point bag) as [[[k nf] pr] H].
  - unfold entry_point, recursion_limit. cbn. lia.
  - eauto.
Qed.

(** The graph run never hits the recursion limit. *)
Lemma invoke_total c s : is_Some (invoke now_iso c s).
Proof.
  unfold invoke. rewrite traverse_walk.
  destruct (plan_total (bag_of s)) as (k & nf & pr & H). unfold plan in H.
  rewrite H. eauto.
Qed.


(** ** What every call keeps true *)

Lemma no_repeat_snoc l e :
  no_repeat l → h_node <$> last l ≠ Some (h_node e) → no_repeat (l ++ [e]).
Proof.
  intros Hl Hne i a b Ha Hb.
  pose proof (lookup_lt_Some _ _ _ Hb) as Hlen. rewrite length_app in Hlen. cbn in Hlen.
  destruct (decide (S i < length l)) as [Hlt|Hge].
  - rewrite lookup_app_l in Ha by lia. rewrite lookup_app_l in Hb by lia. eauto.
  - rewrite lookup_app_l in Ha by lia. rewrite lookup_app_r in Hb by lia.
    replace (S i - length l) with 0 in Hb by lia. cbn in Hb. injection Hb as <-.
    intros Heq. apply Hne. rewrite last_lookup.
    replace (pred (length l)) with i by lia. rewrite Ha. cbn. congruence.
Qed.

Lemma history_project m actor s ts :
  steps_history (project m actor s ts) =
  steps_history m ++
    (if appended m actor s
     then [HistoryEntry ts (default "" (sm_last_node (meta_of s))) actor
             (default (status m) (sm_status (meta_of s)))]
     else []).
Proof.
  unfold project. destruct (appended m actor s); cbn; [reflexivity|].
  rewrite app_nil_r. reflexivity.
Qed.

Lemma status_project m actor s ts :
  status (project m actor s ts) = default (status m) (sm_status (meta_of s)).
Proof. unfold project. destruct (appended m actor s); reflexivity. Qed.

Lemma last_node_project m actor s ts :
  truthy_str (sm_last_node (meta_of s)) = true →
  last_node (project m actor s ts) = sm_last_node (meta_of s).
Proof.
  intros Ht. unfold project. destruct (appended m actor s); cbn; rewrite Ht; reflexivity.
Qed.

Lemma no_repeat_project m actor s ts :
  no_repeat (steps_history m) → no_repeat (steps_history (project m actor s ts)).
Proof.
  intros Hm. rewrite history_project.
  destruct (appended m actor s) eqn:Ea; [|rewrite app_nil_r; exact Hm].
  apply no_repeat_snoc; [exact Hm|].
  unfold appended in Ea. apply andb_prop in Ea as [Ht Hne].
  apply negb_true_iff, bool_decide_eq_false in Hne.
  cbn [h_node]. intros Heq. apply Hne.
  change (prev_node (copy_fields m actor s)) with (h_node <$> last (steps_history m)).
  rewrite Heq. destruct (sm_last_node (meta_of s)); [reflexivity|discriminate].
Qed.

Lemma at_rest_settle c k nf pr s :
  plan (bag_of s) = Some (k, nf, pr) → at_rest (settle now_iso c k nf s).
Proof.
  intros Hplan. exists k, nf, pr.
  pose proof (settle_bag c k nf s) as Hb.
  assert (Hbag : bag_of (settle now_iso c k nf s) =
                 match closes nf with
                 | Some (_, res) => <["result" := VStr res]> (bag_of s)
                 | None => bag_of s
                 end).
  { unfold bag_of at 1. rewrite Hb. reflexivity. }
  rewrite Hbag, settle_last_node.
  repeat split.
  - unfold plan in *. destruct (closes nf) as [[st res]|]; [rewrite walk_result|]; exact Hplan.
  - exact Hb.
  - destruct (closes nf) as [[st res]|]; [apply insert_insert_eq|reflexivity].
Qed.

Lemma consistent_weaken iid w : consistent w → consistent_but iid w.
Proof.
  intros [HA HB]. split.
  - intros iid' s _ Hs. exact (HA iid' s Hs).
  - intros iid' m Hm. destruct (HB iid' m Hm) as (H1 & H2 & H3). auto.
Qed.

Lemma run_world_consistent w iid actor m k nf pr s :
  consistent_but iid w → meta_ns w !! iid = Some m →
  plan (bag_of s) = Some (k, nf, pr) →
  consistent (run_world now_iso w iid actor m k nf pr s).
Proof.
  intros [HA HB] Hm Hplan.
  destruct (HB iid m Hm) as (Hid & _ & Hnr).
  pose proof (settle_status (clock w) k nf s) as Hst.
  pose proof (settle_last_node (clock w) k nf s) as Hln.
  split; unfold run_world; cbn [state_ns meta_ns].
  - intros iid' s' Hs'. destruct (decide (iid' = iid)) as [->|Hne].
    + rewrite lookup_insert_eq in Hs'. injection Hs' as <-.
      split; [eapply at_rest_settle; exact Hplan|].
      eexists. rewrite lookup_insert_eq. split; [reflexivity|].
      rewrite status_project, last_node_project, Hst.
      * split; reflexivity.
      * rewrite Hln. apply node_name_truthy.
    + rewrite lookup_insert_ne in Hs' by congruence.
      destruct (HA iid' s' Hne Hs') as (Hr & m' & Hm' & H1 & H2).
      split; [exact Hr|]. exists m'. rewrite lookup_insert_ne by congruence. auto.
  - intros iid' m' Hm'. destruct (decide (iid' = iid)) as [->|Hne].
    + rewrite lookup_insert_eq in Hm'. injection Hm' as <-.
      rewrite instance_id_project, lookup_insert_eq.
      split; [exact Hid|]. split; [eauto|]. apply no_repeat_project, Hnr.
    + rewrite lookup_insert_ne in Hm' by congruence.
      destruct (HB iid' m' Hm') as (H1 & H2 & H3).
      rewrite lookup_insert_ne by congruence. auto.
Qed.

Lemma start_consistent cust by_ w :
  consistent w → consistent (start now_iso uuid4 wf_name cust by_ w).1.
Proof.
  intros Hc. rewrite start_spec. cbn [fst].
  apply run_world_consistent; [|cbn; apply lookup_insert_eq|reflexivity].
  destruct (consistent_weaken (uuid4 (uuids w)) w Hc) as [HA HB].
  split; unfold start_world; cbn [state_ns meta_ns].
  - intros iid' s Hne Hs. rewrite lookup_insert_ne in Hs by congruence.
    destruct (HA iid' s Hne Hs) as (Hr & m' & Hm' & H1 & H2).
    split; [exact Hr|]. exists m'. rewrite lookup_insert_ne by congruence. auto.
  - intros iid' m' Hm'. destruct (decide (iid' = uuid4 (uuids w))) as [->|Hne].
    + rewrite lookup_insert_eq in Hm'. injection Hm' as <-.
      split; [reflexivity|]. split; [congruence|]. intros i a b Ha. discriminate Ha.
    + rewrite lookup_insert_ne in Hm' by congruence.
      destruct (HB iid' m' Hm') as (H1 & H2 & H3).
      rewrite lookup_insert_ne by congruence. auto.
Qed.

Lemma resume_consistent iid actor updates w :
  consistent w → consistent (resume now_iso iid actor updates w).1.
Proof.
  intros Hc. destruct (state_ns w !! iid) as [s|] eqn:Hs.
  - destruct Hc as [HA HB]. destruct (HA iid s Hs) as (_ & m & Hm & _).
    destruct (HB iid m Hm) as (Hid & _).
    destruct (plan_total (updates ∪ bag_of s)) as (k & nf & pr & Hplan).
    rewrite (resume_spec iid actor updates w s m k nf pr Hs Hm Hid Hplan). cbn [fst].
    apply run_world_consistent; [|exact Hm|exact Hplan].
    split; unfold resume_world; cbn [state_ns meta_ns].
    + intros iid' s' Hne Hs'. rewrite lookup_insert_ne in Hs' by congruence.
      exact (HA iid' s' Hs').
    + intros iid' m' Hm'. destruct (HB iid' m' Hm') as (H1 & H2 & H3).
      split; [exact H1|]. split; [|exact H3].
      intros Hne. rewrite lookup_insert_ne by congruence. exact H2.
  - rewrite resume_unknown by exact Hs. exact Hc.
Qed.

Lemma reachable_consistent w : reachable now_iso uuid4 wf_name w → consistent w.
Proof.
  induction 1 as [|c w Hr IH].
  - split; intros iid x H; cbn in H; rewrite lookup_empty in H; discriminate.
  - destruct c; cbn [exec]; [apply start_consistent|apply resume_consistent]; exact IH.
Qed.


(** ** One call, seen from outside *)

Lemma bag_of_settle c k nf s :
  bag_of (settle now_iso c k nf s) = bag_after nf (bag_of s).
Proof. unfold bag_of at 1. rewrite settle_bag. reflexivity. Qed.

Lemma status_of_settle c k nf s :
  sm_status (meta_of (settle now_iso c k nf s)) =
  Some (status_after nf (sm_status (meta_of s))).
Proof. apply settle_status. Qed.

(** After a run the store holds the settled state and its projection. *)
Lemma run_world_lookup w iid actor m k nf pr s :
  instance_id m = iid →
  let w' := run_world now_iso w iid actor m k nf pr s in
  ∃ s' m',
    state_ns w' !! iid = Some s' ∧ meta_ns w' !! iid = Some m' ∧
    instance_id m' = iid ∧
    s' = settle now_iso (clock w) k nf s ∧
    status m' = status_after nf (sm_status (meta_of s)) ∧
    last_node m' = Some (node_name nf) ∧
    steps_history m `prefix_of` steps_history m'.
Proof.
  intros Hid w'. unfold w', run_world. cbn [state_ns meta_ns].
  eexists _, _. rewrite !lookup_insert_eq.
  split; [reflexivity|]. split; [reflexivity|].
  rewrite instance_id_project, status_project, status_of_settle, last_node_project.
  - repeat split; try assumption; try reflexivity.
    + apply settle_last_node.
    + rewrite history_project. eexists. reflexivity.
  - rewrite settle_last_node. apply node_name_truthy.
Qed.

Lemma run_world_events w iid actor m k nf pr s :
  let w' := run_world now_iso w iid actor m k nf pr s in
  ∃ e, events_ns w' !! iid = Some (default [] (events_ns w !! iid) ++ [e]) ∧
       ev_event e = event_kind (summarize iid nf pr (settle now_iso (clock w) k nf s)).
Proof.
  intros w'. unfold w', run_world. cbn [events_ns]. eexists. rewrite lookup_insert_eq.
  split; [reflexivity|].
  destruct (summarize iid nf pr _); reflexivity.
Qed.


(** ** The claims about single calls *)

(** C1, as the code has it: [start] returns the paused summary and logs a
    [paused] event whose status is [paused], yet the metadata left in the
    store has status [in_progress], because the helper that returns the
    summary projects the metadata from the state once more. *)
Theorem start_pause_leaves_in_progress cust by_ w :
  let r := start now_iso uuid4 wf_name cust by_ w in
  let iid := uuid4 (uuids w) in
  r.2 = inr (iid, SPaused first_prompt iid) ∧
  (∃ e, last (history iid r.1) = Some e ∧
        ev_event e = "paused" ∧ ev_status e = "paused") ∧
  status <$> meta_ns r.1 !! iid = Some "in_progress".
Proof.
  cbv zeta. rewrite start_spec. cbn [fst snd].
  split; [reflexivity|]. split.
  - unfold history, run_world. cbn [events_ns]. rewrite lookup_insert_eq.
    cbn [default from_option id]. rewrite last_snoc. eexists. split; [reflexivity|].
    split; [reflexivity|].
    cbn [summarize run_event with_node ev_status].
    rewrite status_project, status_of_settle. reflexivity.
  - unfold run_world. cbn [meta_ns]. rewrite lookup_insert_eq. cbn [fmap option_fmap option_map].
    rewrite status_project, status_of_settle. reflexivity.
Qed.

(** C5: [resume] on an instance id with no persisted execution state raises
    the not-found error and leaves the whole store, all four namespaces,
    as it was. *)
Theorem resume_unknown_fails iid actor updates w :
  state_ns w !! iid = None →
  resume now_iso iid actor updates w =
  (w, inl (ValueError (String.append "No workflow found: " iid))).
Proof. apply resume_unknown. Qed.

(** C6, amended: when Gather Claim Info returns without pausing, the key
    [claim_details] is in the bag, and the guard goes on to Identify
    Accounts exactly when its value is truthy; a falsy value (empty string,
    [None], [0], [False], empty list) selects the terminal marker. *)
Theorem gather_guard_by_truthiness c s c' s' r :
  gather_claim_info now_iso c s = (c', s', Dict r) →
  ∃ v, bag_of s !! "claim_details" = Some v ∧
       route GatherClaimInfo (Dict r) =
       (if truthy v then Some IdentifyAccounts else None).
Proof.
  unfold gather_claim_info. rewrite ask_step. cbv zeta. unfold has_key, route.
  destruct (bag_of s !! "claim_details") as [v|] eqn:Hv; [|discriminate].
  intros [= _ _ <-]. exists v. split; [reflexivity|].
  change (bag_of (set_meta _ _)) with (bag_of s).
  cbn [guard]. unfold get_truthy. rewrite Hv. reflexivity.
Qed.

Lemma start_next cust by_ w :
  let r := start now_iso uuid4 wf_name cust by_ w in
  let iid := uuid4 (uuids w) in
  ∃ s' m',
    r.2 = inr (iid, SPaused first_prompt iid) ∧
    state_ns r.1 !! iid = Some s' ∧ meta_ns r.1 !! iid = Some m' ∧
    instance_id m' = iid ∧ bag_of s' = ∅ ∧
    sm_status (meta_of s') = Some "in_progress".
Proof.
  cbv zeta. rewrite start_spec. cbn [fst snd].
  destruct (run_world_lookup (start_world now_iso uuid4 wf_name w cust by_)
              (uuid4 (uuids w)) by_ (start_meta now_iso uuid4 wf_name w cust by_)
              1 ValidateRequest (Some first_prompt)
              (start_state now_iso uuid4 wf_name w cust) eq_refl)
    as (s' & m' & Hs & Hm & Hid & Heq & _).
  exists s', m'. repeat split; try assumption.
  - rewrite Heq, bag_of_settle. reflexivity.
  - rewrite Heq, status_of_settle. reflexivity.
Qed.

Lemma resume_next w iid actor updates s m k nf pr :
  state_ns w !! iid = Some s →
  meta_ns w !! iid = Some m → instance_id m = iid →
  plan (updates ∪ bag_of s) = Some (k, nf, pr) →
  let r := resume now_iso iid actor updates w in
  ∃ s' m',
    r.2 = inr (summarize iid nf pr s') ∧
    state_ns r.1 !! iid = Some s' ∧ meta_ns r.1 !! iid = Some m' ∧
    instance_id m' = iid ∧
    bag_of s' = bag_after nf (updates ∪ bag_of s) ∧
    sm_status (meta_of s') = Some (status_after nf (sm_status (meta_of s))) ∧
    sm_last_node (meta_of s') = Some (node_name nf) ∧
    status m' = status_after nf (sm_status (meta_of s)) ∧
    last_node m' = Some (node_name nf) ∧
    steps_history m `prefix_of` steps_history m'.
Proof.
  intros Hs Hm Hid Hplan. cbv zeta.
  rewrite (resume_spec iid actor updates w s m k nf pr Hs Hm Hid Hplan). cbn [fst snd].
  destruct (run_world_lookup (resume_world now_iso w iid actor s updates)
              iid actor m k nf pr (resume_state s updates) Hid)
    as (s' & m' & Hs' & Hm' & Hid' & Heq & Hst & Hln & Hpre).
  exists s', m'. cbn [clock resume_world] in Heq.
  repeat split; try assumption.
  - rewrite Heq. reflexivity.
  - rewrite Heq, bag_of_settle. reflexivity.
  - rewrite Heq, status_of_settle. reflexivity.
  - rewrite Heq. apply settle_last_node.
Qed.

(** C7: the cancel scenario.  Starting an instance pauses at Validate
    Request; answering [validate = yes] pauses at Gather Claim Info;
    supplying [claim_details] pauses at the decision; deciding [cancel]
    ends the instance as aborted at Cancel CWD Request with the result
    ["Workflow aborted."].  This holds from any store and for any clock and
    id generator. *)
Theorem cancel_scenario w :
  let iid := uuid4 (uuids w) in
  let r1 := start now_iso uuid4 wf_name "C1" "u1" w in
  let r2 := resume now_iso iid "u2" {["validate" := VStr "yes"]} r1.1 in
  let r3 := resume now_iso iid "u3" {["claim_details" := VStr "x"]} r2.1 in
  let r4 := resume now_iso iid "u4" {["process_decision" := VStr "cancel"]} r3.1 in
  r1.2 = inr (iid, SPaused "Validate request? (yes/no)" iid) ∧
  r2.2 = inr (SPaused "Provide claim details" iid) ∧
  r3.2 = inr (SPaused "Decision? cancel / hold / suppress" iid) ∧
  r4.2 = inr (SAborted "Cancel CWD Request" (Some (VStr "Workflow aborted.")) iid).
Proof.
  cbv zeta.
  destruct (start_next "C1" "u1" w) as (s1 & m1 & Ho1 & Hs1 & Hm1 & Hid1 & Hb1 & Hst1).
  split; [exact Ho1|].
  destruct (resume_next _ (uuid4 (uuids w)) "u2" {["validate" := VStr "yes"]} s1 m1
              2 GatherClaimInfo (Some "Provide claim details") Hs1 Hm1 Hid1)
    as (s2 & m2 & Ho2 & Hs2 & Hm2 & Hid2 & Hb2 & Hst2 & _).
  { rewrite Hb1. vm_compute. reflexivity. }
  split; [exact Ho2|].
  destruct (resume_next _ (uuid4 (uuids w)) "u3" {["claim_details" := VStr "x"]} s2 m2
              3 IdentifyAccounts (Some "Decision? cancel / hold / suppress") Hs2 Hm2 Hid2)
    as (s3 & m3 & Ho3 & Hs3 & Hm3 & Hid3 & Hb3 & Hst3 & _).
  { rewrite Hb2, Hb1. vm_compute. reflexivity. }
  split; [exact Ho3|].
  destruct (resume_next _ (uuid4 (uuids w)) "u4" {["process_decision" := VStr "cancel"]} s3 m3
              4 CancelRequest None Hs3 Hm3 Hid3)
    as (s4 & m4 & Ho4 & Hs4 & Hm4 & Hid4 & Hb4 & Hst4 & _).
  { rewrite Hb3, Hb2, Hb1. vm_compute. reflexivity. }
  rewrite Ho4. unfold summarize. rewrite Hst4, Hb4, Hb3, Hb2, Hb1.
  vm_compute. reflexivity.
Qed.

(** C10: a [start] appends exactly two events to the log of its instance, a
    [created] event and then the event of its run's outcome; a [resume] that
    returns appends exactly two, a [resume_command] event and then the event
    of its run's outcome (paused, progressed, completed or aborted). *)
Theorem two_events_per_call w :
  reachable now_iso uuid4 wf_name w →
  (∀ cust by_,
     let r := start now_iso uuid4 wf_name cust by_ w in
     ∃ iid out e1 e2, r.2 = inr (iid, out) ∧
       history iid r.1 = history iid w ++ [e1; e2] ∧
       ev_event e1 = "created" ∧ ev_event e2 = event_kind out ∧
       ev_event e2 ∈ ["paused"; "progressed"; "completed"; "aborted"]) ∧
  (∀ iid actor updates out,
     let r := resume now_iso iid actor updates w in
     r.2 = inr out →
     ∃ e1 e2, history iid r.1 = history iid w ++ [e1; e2] ∧
       ev_event e1 = "resume_command" ∧ ev_event e2 = event_kind out ∧
       ev_event e2 ∈ ["paused"; "progressed"; "completed"; "aborted"]).
Proof.
  intros Hr. apply reachable_consistent in Hr as [HA HB].
  assert (Hkinds : ∀ p, event_kind p ∈ ["paused"; "progressed"; "completed"; "aborted"]).
  { intros p. destruct p; cbn; apply list_elem_of_In; cbn; tauto. }
  split.
  - intros cust by_. cbv zeta. rewrite start_spec. cbn [fst snd].
    edestruct run_world_events as (e & He & Hk).
    eexists _, _, _, e. split; [reflexivity|].
    unfold history at 1. rewrite He. unfold start_world at 1. cbn [events_ns].
    rewrite lookup_insert_eq. cbn [default from_option id].
    rewrite <- app_assoc. split; [reflexivity|]. split; [reflexivity|].
    rewrite Hk. split; [reflexivity|]. apply Hkinds.
  - intros iid actor updates out. cbv zeta.
    destruct (state_ns w !! iid) as [s|] eqn:Hs;
      [|rewrite resume_unknown by exact Hs; discriminate].
    destruct (HA iid s Hs) as (_ & m & Hm & _). destruct (HB iid m Hm) as (Hid & _).
    destruct (plan_total (updates ∪ bag_of s)) as (k & nf & pr & Hplan).
    rewrite (resume_spec iid actor updates w s m k nf pr Hs Hm Hid Hplan). cbn [fst snd].
    intros [= <-].
    edestruct run_world_events as (e & He & Hk).
    eexists _, e. unfold history at 1. rewrite He. unfold resume_world at 1. cbn [events_ns].
    rewrite lookup_insert_eq. cbn [default from_option id].
    rewrite <- app_assoc. split; [reflexivity|]. split; [reflexivity|].
    cbn [clock resume_world] in Hk. rewrite Hk. split; [reflexivity|]. apply Hkinds.
Qed.

(** ** Calls leave other instances alone *)

Lemma exec_frame c w iid :
  consistent w → target uuid4 c w ≠ iid →
  meta_ns (exec now_iso uuid4 wf_name c w) !! iid = meta_ns w !! iid ∧
  state_ns (exec now_iso uuid4 wf_name c w) !! iid = state_ns w !! iid ∧
  events_ns (exec now_iso uuid4 wf_name c w) !! iid = events_ns w !! iid.
Proof.
  intros [HA HB] Hne. destruct c as [cust by_|iid' actor updates]; cbn [exec target] in *.
  - rewrite start_spec. cbn [fst]. unfold run_world, start_world.
    cbn [state_ns meta_ns events_ns]. rewrite !lookup_insert_ne by congruence. auto.
  - destruct (state_ns w !! iid') as [s|] eqn:Hs.
    + destruct (HA iid' s Hs) as (_ & m & Hm & _). destruct (HB iid' m Hm) as (Hid & _).
      destruct (plan_total (updates ∪ bag_of s)) as (k & nf & pr & Hplan).
      rewrite (resume_spec iid' actor updates w s m k nf pr Hs Hm Hid Hplan). cbn [fst].
      unfold run_world, resume_world. cbn [state_ns meta_ns events_ns].
      rewrite !lookup_insert_ne by congruence. auto.
    + rewrite resume_unknown by exact Hs. auto.
Qed.

(** What a call adds to the event log of an instance: nothing, or a first
    event that is not terminal and then the event of the run's outcome. *)
Lemma exec_events c w iid :
  consistent w →
  history iid (exec now_iso uuid4 wf_name c w) = history iid w ∨
  ∃ e1 e2 out,
    history iid (exec now_iso uuid4 wf_name c w) = history iid w ++ [e1; e2] ∧
    terminal_kind (ev_event e1) = false ∧ ev_event e2 = event_kind out.
Proof.
  intros Hc. destruct (decide (target uuid4 c w = iid)) as [Heq|Hne].
  - destruct Hc as [HA HB].
    destruct c as [cust by_|iid' actor updates]; cbn [exec target] in *; subst iid.
    + right. rewrite start_spec. cbn [fst].
      edestruct run_world_events as (e & He & Hk).
      eexists _, e, _. unfold history at 1. rewrite He. unfold start_world at 1.
      cbn [events_ns]. rewrite lookup_insert_eq. cbn [default from_option id].
      rewrite <- app_assoc. split; [reflexivity|]. split; [reflexivity|]. exact Hk.
    + destruct (state_ns w !! iid') as [s|] eqn:Hs;
        [|left; rewrite resume_unknown by exact Hs; reflexivity].
      right.
      destruct (HA iid' s Hs) as (_ & m & Hm & _). destruct (HB iid' m Hm) as (Hid & _).
      destruct (plan_total (updates ∪ bag_of s)) as (k & nf & pr & Hplan).
      rewrite (resume_spec iid' actor updates w s m k nf pr Hs Hm Hid Hplan). cbn [fst].
      edestruct run_world_events as (e & He & Hk).
      eexists _, e, _. unfold history at 1. rewrite He. unfold resume_world at 1.
      cbn [events_ns]. rewrite lookup_insert_eq. cbn [default from_option id].
      rewrite <- app_assoc. split; [reflexivity|]. split; [reflexivity|]. exact Hk.
  - left. unfold history. destruct (exec_frame c w iid Hc Hne) as (_ & _ & ->). reflexivity.
Qed.

Lemma status_after_terminal nf x :
  terminal_status x = true → terminal_status (status_after nf (Some x)) = true.
Proof. intros Hx. unfold status_after. destruct nf; cbn; solve [exact Hx | reflexivity]. Qed.

(** ** Step histories *)

(** C8: in every store the engine can reach, no step history has two
    neighbouring entries with the same node; and a call (one whose new id,
    if it hands one out, is unused) only ever extends the step history of
    an instance: the old history is a prefix of the new one. *)
Theorem steps_history_append_only w :
  reachable now_iso uuid4 wf_name w →
  (∀ iid m, meta_ns w !! iid = Some m → no_repeat (steps_history m)) ∧
  (∀ c iid m, fresh_id uuid4 c w → meta_ns w !! iid = Some m →
     ∃ m', meta_ns (exec now_iso uuid4 wf_name c w) !! iid = Some m' ∧
           steps_history m `prefix_of` steps_history m' ∧
           (List.length (steps_history m) ≤ List.length (steps_history m'))%nat).
Proof.
  intros Hr. apply reachable_consistent in Hr as Hc. split.
  - intros iid m Hm. destruct Hc as [_ HB]. destruct (HB iid m Hm) as (_ & _ & H). exact H.
  - intros c iid m Hfresh Hm.
    destruct (decide (target uuid4 c w = iid)) as [Heq|Hne].
    + destruct c as [cust by_|iid' actor updates]; cbn [exec target fresh_id] in *; subst iid.
      * congruence.
      * destruct Hc as [HA HB]. destruct (HB iid' m Hm) as (Hid & [s Hs] & _).
        destruct (plan_total (updates ∪ bag_of s)) as (k & nf & pr & Hplan).
        destruct (resume_next w iid' actor updates s m k nf pr Hs Hm Hid Hplan)
          as (s' & m' & _ & _ & Hm' & _ & _ & _ & _ & _ & _ & Hpre).
        exists m'. split; [exact Hm'|]. split; [exact Hpre|].
        apply prefix_length, Hpre.
    + destruct (exec_frame c w iid Hc Hne) as (-> & _). exists m.
      split; [exact Hm|]. split; [reflexivity|lia].
Qed.

(** ** Runs that stall, and runs that are repeated *)

Lemma walk_det f1 : ∀ f2 n bag x y,
  walk f1 n bag = Some x → walk f2 n bag = Some y → x = y.
Proof.
  induction f1 as [|f1 IH]; intros f2 n bag x y H1 H2; [discriminate|].
  destruct f2 as [|f2]; [discriminate|]. cbn [walk] in H1, H2.
  destruct (asks n) as [[key prompt]|]; [|congruence].
  destruct (has_key bag key); [|congruence].
  destruct (guard n bag) as [n'|]; [|congruence].
  destruct (walk f1 n' bag) as [[[k1 nf1] pr1]|] eqn:E1; [|discriminate].
  destruct (walk f2 n' bag) as [[[k2 nf2] pr2]|] eqn:E2; [|discriminate].
  pose proof (IH _ _ _ _ _ E1 E2) as Heq. congruence.
Qed.

Lemma reaches_walk bag n :
  reaches bag n → ∀ f k nf pr, walk f n bag = Some (k, nf, pr) →
  ∃ f' k', walk f' entry_point bag = Some (k', nf, pr).
Proof.
  induction 1 as [|n n' key prompt Hreach IH Hask Hkey Hguard]; intros f k nf pr Hw.
  - eauto.
  - apply (IH (S f) (S k)). cbn [walk]. rewrite Hask, Hkey, Hguard, Hw. reflexivity.
Qed.

Lemma unmatched_plan bag n :
  unmatched_at bag n → closes n = None ∧ ∃ k, plan bag = Some (k, n, None).
Proof.
  intros (Hreach & key & prompt & v & Hask & Hv & Hguard).
  split; [destruct n; cbn in Hask |- *; congruence|].
  assert (Hw : walk 1 n bag = Some (1, n, None)).
  { cbn [walk]. rewrite Hask. unfold has_key. rewrite Hv, Hguard. reflexivity. }
  destruct (reaches_walk bag n Hreach _ _ _ _ Hw) as (f' & k' & Hw').
  destruct (plan_total bag) as (k & nf & pr & Hplan).
  pose proof (walk_det _ _ _ _ _ _ Hw' Hplan) as Heq.
  injection Heq as -> -> ->. eauto.
Qed.

Lemma resume_events w iid actor updates out :
  consistent w →
  (resume now_iso iid actor updates w).2 = inr out →
  ∃ e1 e2,
    history iid (resume now_iso iid actor updates w).1 = history iid w ++ [e1; e2] ∧
    ev_event e1 = "resume_command" ∧ ev_event e2 = event_kind out.
Proof.
  intros [HA HB].
  destruct (state_ns w !! iid) as [s|] eqn:Hs;
    [|rewrite resume_unknown by exact Hs; discriminate].
  destruct (HA iid s Hs) as (_ & m & Hm & _). destruct (HB iid m Hm) as (Hid & _).
  destruct (plan_total (updates ∪ bag_of s)) as (k & nf & pr & Hplan).
  rewrite (resume_spec iid actor updates w s m k nf pr Hs Hm Hid Hplan). cbn [fst snd].
  intros [= <-].
  edestruct run_world_events as (e & He & Hk).
  eexists _, e. unfold history at 1. rewrite He. unfold resume_world at 1. cbn [events_ns].
  rewrite lookup_insert_eq. cbn [default from_option id].
  rewrite <- app_assoc. split; [reflexivity|]. split; [reflexivity|].
  cbn [clock resume_world] in Hk. exact Hk.
Qed.

(** ** Terminal outcomes *)

(** C2, amended: in every store the engine can reach, (1) a call, whatever
    it is, adds at most one terminal event (completed or aborted) to the log
    of any instance; (2) once the metadata status of an instance is
    completed or aborted, every later resume, and every start that hands out
    an unused id, leaves it completed or aborted (it can pass from one to
    the other); (3) every later resume of such an instance that does not
    pause appends exactly one more terminal event, of the kind of the
    summary it returns. *)
Theorem terminal_status_stays w :
  reachable now_iso uuid4 wf_name w →
  (∀ c iid,
     (List.length (terminal_events (history iid (exec now_iso uuid4 wf_name c w))) ≤
        S (List.length (terminal_events (history iid w))))%nat) ∧
  (∀ c iid m,
     fresh_id uuid4 c w → meta_ns w !! iid = Some m →
     terminal_status (status m) = true →
     ∃ m', meta_ns (exec now_iso uuid4 wf_name c w) !! iid = Some m' ∧
           terminal_status (status m') = true) ∧
  (∀ iid actor updates m out,
     meta_ns w !! iid = Some m → terminal_status (status m) = true →
     (resume now_iso iid actor updates w).2 = inr out →
     summary_prompt out = None →
     ∃ e, terminal_events (history iid (resume now_iso iid actor updates w).1) =
            terminal_events (history iid w) ++ [e] ∧
          ev_event e = event_kind out ∧ terminal_kind (ev_event e) = true).
Proof.
  intros Hr. pose proof (reachable_consistent w Hr) as Hc. split; [|split].
  - intros c iid.
    destruct (exec_events c w iid Hc) as [->|(e1 & e2 & out & -> & H1 & _)]; [lia|].
    unfold terminal_events. rewrite filter_app, length_app.
    rewrite filter_cons_False by (rewrite H1; discriminate).
    pose proof (length_filter (λ e, terminal_kind (ev_event e) = true) [e2]) as Hle.
    cbn [List.length] in Hle. lia.
  - intros c iid m Hfresh Hm Ht.
    destruct (decide (target uuid4 c w = iid)) as [Heq|Hne].
    + destruct c as [cust by_|iid' actor updates]; cbn [exec target fresh_id] in *; subst iid.
      * congruence.
      * destruct Hc as [HA HB]. destruct (HB iid' m Hm) as (Hid & [s Hs] & _).
        destruct (HA iid' s Hs) as (_ & m0 & Hm0 & Hst & _).
        assert (m0 = m) by congruence. subst m0.
        destruct (plan_total (updates ∪ bag_of s)) as (k & nf & pr & Hplan).
        destruct (resume_next w iid' actor updates s m k nf pr Hs Hm Hid Hplan)
          as (s' & m' & _ & _ & Hm' & _ & _ & _ & _ & Hstat & _).
        exists m'. split; [exact Hm'|]. rewrite Hstat, Hst.
        apply status_after_terminal, Ht.
    + destruct (exec_frame c w iid Hc Hne) as (-> & _). eauto.
  - intros iid actor updates m out Hm Ht Hout Hnp.
    destruct (resume_events w iid actor updates out Hc Hout) as (e1 & e2 & Hh & H1 & H2).
    destruct Hc as [HA HB]. destruct (HB iid m Hm) as (Hid & [s Hs] & _).
    destruct (HA iid s Hs) as (_ & m0 & Hm0 & Hst & _).
    assert (m0 = m) by congruence. subst m0.
    destruct (plan_total (updates ∪ bag_of s)) as (k & nf & pr & Hplan).
    destruct (resume_next w iid actor updates s m k nf pr Hs Hm Hid Hplan)
      as (s' & m' & Ho & _ & _ & _ & _ & Hst' & _).
    rewrite Ho in Hout. injection Hout as Hout.
    assert (Hkind : terminal_kind (event_kind out) = true).
    { rewrite <- Hout in Hnp |- *. unfold summarize in *.
      destruct pr as [p|]; [discriminate Hnp|].
      rewrite Hst', Hst. cbn [default from_option id].
      pose proof (status_after_terminal nf (status m) Ht) as Hterm.
      unfold terminal_status in Hterm.
      destruct (String.eqb (status_after nf (Some (status m))) "completed");
        [reflexivity|].
      cbn [orb] in Hterm. rewrite Hterm. reflexivity. }
    exists e2. rewrite Hh. unfold terminal_events. rewrite filter_app.
    rewrite filter_cons_False by (rewrite H1; discriminate).
    rewrite filter_cons_True by (rewrite H2; exact Hkind).
    rewrite filter_nil, H2. auto.
Qed.

(** C4: when the bag, with the updates of a [resume] merged in, takes the
    run to a node whose key is present but whose value no branch of the
    guard accepts, for an instance whose metadata status is [in_progress]:
    the call returns the [in_progress] summary naming that node, the
    metadata status is [in_progress] afterwards, and the two events logged
    are the resume command and a [progressed] event, so no pause, no prompt
    and no terminal outcome. *)
Theorem unmatched_guard_stalls w iid s m actor updates n :
  reachable now_iso uuid4 wf_name w →
  state_ns w !! iid = Some s → meta_ns w !! iid = Some m →
  status m = "in_progress" →
  unmatched_at (updates ∪ bag_of s) n →
  let r := resume now_iso iid actor updates w in
  r.2 = inr (SInProgress (node_name n) iid) ∧
  summary_prompt (SInProgress (node_name n) iid) = None ∧
  status <$> meta_ns r.1 !! iid = Some "in_progress" ∧
  ∃ e1 e2, history iid r.1 = history iid w ++ [e1; e2] ∧
           ev_event e1 = "resume_command" ∧ ev_event e2 = "progressed".
Proof.
  intros Hr Hs Hm Hstat Hun. cbv zeta.
  apply reachable_consistent in Hr as Hc. destruct Hc as [HA HB].
  destruct (HB iid m Hm) as (Hid & _).
  destruct (HA iid s Hs) as (_ & m0 & Hm0 & Hst & _).
  assert (m0 = m) by congruence. subst m0. rewrite Hstat in Hst.
  destruct (unmatched_plan _ _ Hun) as (Hcl & k & Hplan).
  destruct (resume_next w iid actor updates s m k n None Hs Hm Hid Hplan)
    as (s' & m' & Ho & _ & Hm' & _ & _ & Hst' & _ & Hstat' & _).
  assert (Hafter : status_after n (Some "in_progress") = "in_progress").
  { unfold status_after. rewrite Hcl. reflexivity. }
  rewrite Hst in Hst', Hstat'. rewrite Hafter in Hst', Hstat'.
  assert (Hsum : summarize iid n None s' = SInProgress (node_name n) iid).
  { unfold summarize. rewrite Hst'. reflexivity. }
  rewrite Hsum in Ho.
  split; [exact Ho|]. split; [reflexivity|].
  split; [rewrite Hm'; cbn; rewrite Hstat'; reflexivity|].
  destruct (resume_events w iid actor updates _ (reachable_consistent _ Hr) Ho)
    as (e1 & e2 & Hh & H1 & H2).
  exists e1, e2. auto.
Qed.







(** ** Listing *)








Lemma rejects_exact wanted field : rejects wanted field = negb (exact_match wanted field).
Proof.
  unfold rejects, exact_match, truthy_str. destruct wanted as [v|]; [|reflexivity].
  destruct (String.eqb v ""); [reflexivity|]. cbn [negb andb]. f_equal.
  apply bool_decide_ext. split; congruence.
Qed.

Lemma collect_filter w cust st by_ wf ids :
  collect w cust st by_ wf ids =
  filter (λ m, selected cust st by_ wf m = true) (omap (λ iid, meta_ns w !! iid) ids).
Proof.
  induction ids as [|iid ids IH]; [reflexivity|].
  cbn [collect omap list_omap]. destruct (meta_ns w !! iid) as [m|]; [|exact IH].
  rewrite !rejects_exact, IH, filter_cons.
  destruct (decide (selected cust st by_ wf m = true)) as [Hsel|Hsel];
    unfold selected in Hsel;
    destruct (exact_match wf (workflow_name m)), (exact_match cust (customer_id m)),
      (exact_match st (status m)), (exact_match by_ (started_by m));
    cbn [negb andb] in *; congruence.
Qed.

Lemma insert_desc_perm x l : insert_desc x l ≡ₚ x :: l.
Proof.
  induction l as [|y l IH]; [reflexivity|]. cbn [insert_desc].
  destruct (String.ltb (sort_key x) (sort_key y)); [|reflexivity].
  rewrite IH. apply Permutation_swap.
Qed.

Lemma sort_desc_perm l : sort_desc l ≡ₚ l.
Proof.
  induction l as [|x l IH]; [reflexivity|]. cbn [sort_desc].
  rewrite insert_desc_perm, IH. reflexivity.
Qed.





(** ** Further properties of the engine *)

Lemma project_identity m actor s ts :
  customer_id (project m actor s ts) = customer_id m ∧
  workflow_name (project m actor s ts) = workflow_name m ∧
  started_by (project m actor s ts) = started_by m ∧
  last_actor (project m actor s ts) = Some actor.
Proof. unfold project. destruct (appended m actor s); repeat split; reflexivity. Qed.

(** Every store the engine reaches is reached by a [start] or by a [resume]
    that found its state and metadata; both end in a run. *)
Lemma reachable_run_ind (P : world → Prop) :
  P empty_world →
  (∀ w cust by_,
     reachable now_iso uuid4 wf_name w → P w →
     P (run_world now_iso (start_world now_iso uuid4 wf_name w cust by_)
          (uuid4 (uuids w)) by_ (start_meta now_iso uuid4 wf_name w cust by_)
          1 ValidateRequest (Some first_prompt)
          (start_state now_iso uuid4 wf_name w cust))) →
  (∀ w iid actor updates s m k nf pr,
     reachable now_iso uuid4 wf_name w → P w →
     state_ns w !! iid = Some s → meta_ns w !! iid = Some m → instance_id m = iid →
     plan (updates ∪ bag_of s) = Some (k, nf, pr) →
     P (run_world now_iso (resume_world now_iso w iid actor s updates) iid actor m
          k nf pr (resume_state s updates))) →
  ∀ w, reachable now_iso uuid4 wf_name w → P w.
Proof.
  intros H0 Hstart Hresume w Hr. induction Hr as [|c w Hr IH]; [exact H0|].
  destruct c as [cust by_|iid actor updates]; cbn [exec].
  - rewrite start_spec. cbn [fst]. apply Hstart; assumption.
  - destruct (reachable_consistent w Hr) as [HA HB].
    destruct (state_ns w !! iid) as [s|] eqn:Hs;
      [|rewrite resume_unknown by exact Hs; exact IH].
    destruct (HA iid s Hs) as (_ & m & Hm & _). destruct (HB iid m Hm) as (Hid & _).
    destruct (plan_total (updates ∪ bag_of s)) as (k & nf & pr & Hplan).
    rewrite (resume_spec iid actor updates w s m k nf pr Hs Hm Hid Hplan). cbn [fst].
    eapply Hresume; eassumption.
Qed.

Lemma closes_known nf st res : closes nf = Some (st, res) → known_status st.
Proof. destruct nf; cbn; intros [= <- <-]; unfold known_status; auto. Qed.

Lemma status_after_known nf x :
  known_status x → known_status (status_after nf (Some x)).
Proof.
  intros Hx. unfold status_after. destruct (closes nf) as [[st res]|] eqn:E; [|exact Hx].
  eapply closes_known, E.
Qed.

Lemma reachable_known_status w :
  reachable now_iso uuid4 wf_name w →
  ∀ iid s, state_ns w !! iid = Some s →
  ∃ x, sm_status (meta_of s) = Some x ∧ known_status x.
Proof.
  revert w. apply (reachable_run_ind (λ w, ∀ iid s, state_ns w !! iid = Some s →
                      ∃ x, sm_status (meta_of s) = Some x ∧ known_status x)).
  - intros iid s H. cbn in H. rewrite lookup_empty in H. discriminate.
  - intros w cust by_ Hr IHHr iid s. unfold run_world, start_world. cbn [state_ns clock].
    destruct (decide (iid = uuid4 (uuids w))) as [->|Hne].
    + rewrite lookup_insert_eq. intros [= <-]. rewrite status_of_settle.
      eexists. split; [reflexivity|]. apply status_after_known. left. reflexivity.
    + rewrite !lookup_insert_ne by congruence. apply IHHr.
  - intros w iid actor updates s m k nf pr Hr IHHr H Hm Hid Hplan iid' s'.
    unfold run_world, resume_world. cbn [state_ns clock].
    destruct (decide (iid' = iid)) as [->|Hne].
    + rewrite lookup_insert_eq. intros [= <-]. rewrite status_of_settle.
      eexists. split; [reflexivity|]. change (meta_of (resume_state s updates)) with (meta_of s).
      destruct (IHHr iid s H) as (x & -> & Hx). apply status_after_known, Hx.
    + rewrite !lookup_insert_ne by congruence. apply IHHr.
Qed.

(** X1: in every store the engine can reach, the status of an instance's
    metadata is the status held in its execution state, and it is one of
    [in_progress], [completed], [aborted]; in particular it is never
    [paused]. *)
Theorem metadata_status_never_paused w iid m :
  reachable now_iso uuid4 wf_name w → meta_ns w !! iid = Some m →
  known_status (status m) ∧ status m ≠ "paused" ∧
  ∃ s, state_ns w !! iid = Some s ∧ sm_status (meta_of s) = Some (status m).
Proof.
  intros Hr Hm. destruct (reachable_consistent w Hr) as [HA HB].
  destruct (HB iid m Hm) as (_ & [s Hs] & _).
  destruct (HA iid s Hs) as (_ & m0 & Hm0 & Hst & _).
  assert (m0 = m) by congruence. subst m0.
  destruct (reachable_known_status w Hr iid s Hs) as (x & Hx & Hk).
  assert (x = status m) by congruence. subst x.
  split; [exact Hk|]. split; [|eauto].
  destruct Hk as [E|[E|E]]; rewrite E; discriminate.
Qed.

(** *** The index *)

Lemma index_of_add iid ix :
  default [] (add_index iid ix !! "instances") =
  if bool_decide (iid ∈ default [] (ix !! "instances"))
  then default [] (ix !! "instances")
  else default [] (ix !! "instances") ++ [iid].
Proof.
  unfold add_index. destruct (bool_decide _); [reflexivity|].
  rewrite lookup_insert_eq. reflexivity.
Qed.

Lemma reachable_index w :
  reachable now_iso uuid4 wf_name w →
  NoDup (index_of w) ∧ ∀ iid, iid ∈ index_of w ↔ is_Some (meta_ns w !! iid).
Proof.
  revert w. apply (reachable_run_ind (λ w,
    NoDup (index_of w) ∧ ∀ iid, iid ∈ index_of w ↔ is_Some (meta_ns w !! iid))).
  - split; [constructor|]. intros iid. unfold index_of. cbn.
    rewrite !lookup_empty. cbn. split; [intros H; inversion H|intros [x H]; discriminate].
  - intros w cust by_ Hr [Hnd Hiff].
    unfold index_of, run_world, start_world in *. cbn [index_ns meta_ns] in *.
    rewrite index_of_add.
    destruct (bool_decide_reflect (uuid4 (uuids w) ∈ default [] (index_ns w !! "instances")))
      as [Hin|Hnin].
    + split; [exact Hnd|]. intros iid. destruct (decide (iid = uuid4 (uuids w))) as [->|Hne].
      * rewrite lookup_insert_eq. split; [eauto|intros _; exact Hin].
      * rewrite !lookup_insert_ne by congruence. apply Hiff.
    + split.
      * apply NoDup_app. split; [exact Hnd|]. split; [|apply NoDup_singleton].
        intros x Hx Hx'. apply list_elem_of_singleton in Hx'. subst x. contradiction.
      * intros iid. rewrite elem_of_app, list_elem_of_singleton.
        destruct (decide (iid = uuid4 (uuids w))) as [->|Hne].
        -- rewrite lookup_insert_eq. split; [eauto|intros _; right; reflexivity].
        -- rewrite !lookup_insert_ne by congruence. rewrite Hiff. tauto.
  - intros w iid actor updates s m k nf pr Hr [Hnd Hiff] Hs Hm Hid Hplan.
    unfold index_of, run_world, resume_world in *. cbn [index_ns meta_ns] in *.
    split; [exact Hnd|]. intros iid'. destruct (decide (iid' = iid)) as [->|Hne].
    + rewrite lookup_insert_eq, Hiff, Hm. split; eauto.
    + rewrite lookup_insert_ne by congruence. apply Hiff.
Qed.

(** X2: in every store the engine can reach, the index lists each instance
    once, and an id is in the index exactly when the instance has metadata,
    which is exactly when it has an execution state. *)
Theorem index_lists_every_instance_once w :
  reachable now_iso uuid4 wf_name w →
  NoDup (index_of w) ∧
  ∀ iid, (iid ∈ index_of w ↔ is_Some (get_meta iid w)) ∧
         (iid ∈ index_of w ↔ is_Some (get_state iid w)).
Proof.
  intros Hr. destruct (reachable_index w Hr) as [Hnd Hiff].
  destruct (reachable_consistent w Hr) as [HA HB].
  split; [exact Hnd|]. intros iid. unfold get_meta, get_state.
  split; [apply Hiff|]. rewrite Hiff. split.
  - intros [m Hm]. destruct (HB iid m Hm) as (_ & H & _). exact H.
  - intros [s Hs]. destruct (HA iid s Hs) as (_ & m & Hm & _). eauto.
Qed.

Lemma omap_all_length {A B} (f : A → option B) (l : list A) :
  (∀ x, x ∈ l → is_Some (f x)) → List.length (omap f l) = List.length l.
Proof.
  induction l as [|a l IH]; intros H; [reflexivity|].
  cbn [omap list_omap]. destruct (H a) as [b Hb]; [left|]. rewrite Hb. cbn [List.length].
  f_equal. apply IH. intros x Hx. apply H. right. exact Hx.
Qed.

Lemma selected_none m : selected None None None None m = true.
Proof. reflexivity. Qed.

(** X3: without filters, [list_instances] returns the metadata of every
    instance of a reachable store, each instance once: an entry is in the
    result exactly when it is the metadata of some instance, and there are
    as many entries as indexed ids. *)
Theorem list_instances_unfiltered w :
  reachable now_iso uuid4 wf_name w →
  (∀ m, m ∈ list_instances None None None None w ↔ ∃ iid, get_meta iid w = Some m) ∧
  List.length (list_instances None None None None w) = List.length (index_of w).
Proof.
  intros Hr. destruct (reachable_index w Hr) as [Hnd Hiff].
  unfold list_instances. fold (index_of w).
  assert (Hperm : sort_desc (collect w None None None None (index_of w)) ≡ₚ
                  omap (λ iid, meta_ns w !! iid) (index_of w)).
  { rewrite sort_desc_perm, collect_filter. clear.
    induction (omap _ _) as [|x l IH]; [reflexivity|].
    rewrite filter_cons_True by apply selected_none. rewrite IH. reflexivity. }
  split.
  - intros m. rewrite Hperm, list_elem_of_omap. unfold get_meta. split.
    + intros (iid & _ & H). eauto.
    + intros (iid & H). exists iid. split; [apply Hiff; eauto|exact H].
  - rewrite Hperm. apply omap_all_length. intros x Hx. apply Hiff, Hx.
Qed.

Lemma collect_none w cust st by_ wf ids :
  (∀ iid m, meta_ns w !! iid = Some m → rejects st (status m) = true) →
  collect w cust st by_ wf ids = [].
Proof.
  intros H. induction ids as [|iid ids IH]; [reflexivity|]. cbn [collect].
  destruct (meta_ns w !! iid) as [m|] eqn:Hm; [|exact IH].
  rewrite (H iid m Hm), IH.
  destruct (rejects wf (workflow_name m)), (rejects cust (customer_id m)); reflexivity.
Qed.

Lemma reachable_rejects_paused w iid m :
  reachable now_iso uuid4 wf_name w → meta_ns w !! iid = Some m →
  rejects (Some "paused") (status m) = true.
Proof.
  intros Hr Hm. destruct (reachable_consistent w Hr) as [HA HB].
  destruct (HB iid m Hm) as (_ & [s Hs] & _).
  destruct (HA iid s Hs) as (_ & m0 & Hm0 & Hst & _).
  assert (m0 = m) by congruence. subst m0.
  destruct (reachable_known_status w Hr iid s Hs) as (x & Hx & Hk).
  assert (x = status m) by congruence. subst x.
  unfold rejects. cbn [truthy_str String.eqb negb andb].
  apply negb_true_iff, bool_decide_eq_false. intros [= E].
  destruct Hk as [K|[K|K]]; rewrite K in E; discriminate.
Qed.

(** X4: in every store the engine can reach, [list_instances] with the
    status filter [paused] returns nothing, whatever the other filters are,
    because no persisted metadata ever has that status. *)
Theorem no_instance_is_listed_as_paused cust by_ wf w :
  reachable now_iso uuid4 wf_name w →
  list_instances cust (Some "paused") by_ wf w = [].
Proof.
  intros Hr. unfold list_instances. rewrite collect_none; [reflexivity|].
  intros iid m Hm. eapply reachable_rejects_paused; eassumption.
Qed.

(** X5: in every store the engine can reach, the request layer's
    [pending_human_steps] returns the empty list. *)
Theorem pending_human_steps_empty w :
  reachable now_iso uuid4 wf_name w → pending_human_steps w = [].
Proof.
  intros Hr. unfold pending_human_steps, list_instances. rewrite collect_none; [reflexivity|].
  intros iid m Hm. eapply reachable_rejects_paused; eassumption.
Qed.

(** *** The bag, the log and the fields that never change *)

Lemma bag_after_lookup nf bag k :
  k ≠ "result" → bag_after nf bag !! k = bag !! k.
Proof.
  intros Hk. unfold bag_after. destruct (closes nf) as [[st res]|]; [|reflexivity].
  apply lookup_insert_ne. congruence.
Qed.

Lemma bag_after_keeps nf bag k : is_Some (bag !! k) → is_Some (bag_after nf bag !! k).
Proof.
  intros Hk. unfold bag_after. destruct (closes nf) as [[st res]|]; [|exact Hk].
  destruct (decide (k = "result")) as [->|Hne].
  - rewrite lookup_insert_eq. eauto.
  - rewrite lookup_insert_ne by congruence. exact Hk.
Qed.

(** X6: a [resume] that returns only adds to the bag.  Every key the bag
    held is still there; a key of the updates other than [result] holds the
    supplied value; every other key apart from [result] holds what it held
    before. *)
Theorem resume_only_adds_to_bag w iid actor updates s out :
  reachable now_iso uuid4 wf_name w →
  state_ns w !! iid = Some s →
  (resume now_iso iid actor updates w).2 = inr out →
  ∃ s', get_state iid (resume now_iso iid actor updates w).1 = Some s' ∧
    (∀ k, is_Some (bag_of s !! k) → is_Some (bag_of s' !! k)) ∧
    (∀ k v, k ≠ "result" → updates !! k = Some v → bag_of s' !! k = Some v) ∧
    (∀ k, k ≠ "result" → updates !! k = None → bag_of s' !! k = bag_of s !! k).
Proof.
  intros Hr Hs _. destruct (reachable_consistent w Hr) as [HA HB].
  destruct (HA iid s Hs) as (_ & m & Hm & _). destruct (HB iid m Hm) as (Hid & _).
  destruct (plan_total (updates ∪ bag_of s)) as (k & nf & pr & Hplan).
  destruct (resume_next w iid actor updates s m k nf pr Hs Hm Hid Hplan)
    as (s' & m' & _ & Hs' & _ & _ & Hbag & _).
  exists s'. split; [exact Hs'|]. rewrite Hbag. split; [|split].
  - intros key Hkey. apply bag_after_keeps. rewrite lookup_union.
    destruct Hkey as [v ->]. destruct (updates !! key); cbn; eauto.
  - intros key v Hne Hv. rewrite bag_after_lookup by exact Hne.
    apply lookup_union_Some_l, Hv.
  - intros key Hne Hv. rewrite bag_after_lookup by exact Hne.
    apply lookup_union_r, Hv.
Qed.

(** X7: a call works on one instance only: the execution state, the
    metadata and the event log of every other instance of a reachable store
    are the same after the call as before. *)
Theorem calls_leave_other_instances_alone w c iid :
  reachable now_iso uuid4 wf_name w → target uuid4 c w ≠ iid →
  get_state iid (exec now_iso uuid4 wf_name c w) = get_state iid w ∧
  get_meta iid (exec now_iso uuid4 wf_name c w) = get_meta iid w ∧
  history iid (exec now_iso uuid4 wf_name c w) = history iid w.
Proof.
  intros Hr Hne. destruct (exec_frame c w iid (reachable_consistent w Hr) Hne) as (H1 & H2 & H3).
  unfold get_state, get_meta, history. rewrite H1, H2, H3. auto.
Qed.

(** X8: the event log is append-only: whatever the call, the log of every
    instance before the call is a prefix of its log after the call. *)
Theorem event_log_append_only w c iid :
  reachable now_iso uuid4 wf_name w →
  history iid w `prefix_of` history iid (exec now_iso uuid4 wf_name c w).
Proof.
  intros Hr.
  destruct (exec_events c w iid (reachable_consistent w Hr))
    as [->|(e1 & e2 & out & -> & _)]; [reflexivity|].
  eexists. reflexivity.
Qed.

(** [_run] when the metadata is missing: the state is persisted, then the
    projector raises. *)
Lemma run_without_meta iid s actor w k nf pr :
  meta_ns w !! iid = None → plan (bag_of s) = Some (k, nf, pr) →
  _run now_iso iid s actor w =
  (World (<[iid := settle now_iso (clock w) k nf s]> (state_ns w)) (meta_ns w)
         (events_ns w) (index_ns w) (clock_after (clock w) k nf) (uuids w),
   inl (ValueError "Missing meta")).
Proof.
  intros Hm Hplan.
  unfold _run, invoke. unfold bind at 1. unfold get_clock.
  rewrite traverse_walk. unfold plan in Hplan. rewrite Hplan.
  pose proof (default_last_node_settle (clock w) k nf s) as Hdl.
  set (s1 := settle now_iso (clock w) k nf s) in *.
  destruct pr as [p|]; cbn [handed_back]; cbv beta iota; rewrite Hdl;
    unfold bind at 1; unfold set_clock at 1;
    unfold bind at 1; unfold put_state at 1;
    cbn [state_ns meta_ns events_ns index_ns clock uuids];
    unfold bind at 1; unfold _update_meta_from_state, bind, _get_meta, get_meta_item;
    cbn [state_ns meta_ns events_ns index_ns clock uuids];
    rewrite Hm; reflexivity.
Qed.

Lemma resume_without_meta_spec iid actor updates w s k nf pr :
  state_ns w !! iid = Some s → meta_ns w !! iid = None →
  plan (updates ∪ bag_of s) = Some (k, nf, pr) →
  resume now_iso iid actor updates w =
  (World (<[iid := settle now_iso (S (clock w)) k nf (resume_state s updates)]>
            (<[iid := resume_state s updates]> (state_ns w)))
         (meta_ns w)
         (<[iid := default [] (events_ns w !! iid) ++
                   [Event (now_iso (clock w)) iid "resume_command"
                          (sm_last_node (meta_of s)) "in_progress" (Some actor)
                          (DUpdates updates)]]> (events_ns w))
         (index_ns w) (clock_after (S (clock w)) k nf) (uuids w),
   inl (ValueError "Missing meta")).
Proof.
  intros Hs Hm Hplan.
  unfold resume. unfold bind at 1. unfold get_state_item at 1. rewrite Hs.
  unfold bind at 1. unfold put_state at 1.
  unfold bind at 1. unfold _append_event, bind, get_events_item, tick, put_events.
  cbn [state_ns meta_ns events_ns index_ns clock uuids].
  erewrite run_without_meta with (k := k) (nf := nf) (pr := pr);
    [|cbn; exact Hm|exact Hplan].
  reflexivity.
Qed.

(** X9: a [resume] for an instance whose execution state is stored but
    whose metadata is missing raises the missing-metadata error after the
    fact: the merged and re-run state has been persisted and the resume
    command has been logged, while metadata and index are untouched and no
    outcome event is logged. *)
Theorem resume_without_metadata iid actor updates w s :
  state_ns w !! iid = Some s → meta_ns w !! iid = None →
  let r := resume now_iso iid actor updates w in
  r.2 = inl (ValueError "Missing meta") ∧
  (∃ s', state_ns r.1 !! iid = Some s' ∧
         ∀ k, k ≠ "result" → bag_of s' !! k = (updates ∪ bag_of s) !! k) ∧
  meta_ns r.1 = meta_ns w ∧ index_ns r.1 = index_ns w ∧
  ∃ e, history iid r.1 = history iid w ++ [e] ∧ ev_event e = "resume_command".
Proof.
  intros Hs Hm. cbv zeta.
  destruct (plan_total (updates ∪ bag_of s)) as (k & nf & pr & Hplan).
  rewrite (resume_without_meta_spec iid actor updates w s k nf pr Hs Hm Hplan).
  cbn [fst snd state_ns meta_ns events_ns index_ns clock uuids].
  split; [reflexivity|]. split; [|split; [reflexivity|split; [reflexivity|]]].
  - eexists. rewrite lookup_insert_eq. split; [reflexivity|].
    intros key Hne. rewrite bag_of_settle, bag_after_lookup by exact Hne. reflexivity.
  - eexists. unfold history. cbn [events_ns]. rewrite lookup_insert_eq.
    split; reflexivity.
Qed.

Lemma start_time_project m actor s ts :
  truthy_str (start_time m) = true → start_time (project m actor s ts) = start_time m.
Proof.
  intros Ht. unfold project. destruct (appended m actor s); cbn; rewrite Ht;
    rewrite andb_false_r; reflexivity.
Qed.

(** X10: who an instance belongs to never changes.  After any call on a
    reachable store (a start handing out an unused id, or any resume) the
    metadata of an instance has the instance id, customer id, workflow name
    and starter it had before, and the start time it had if one was set. *)
Theorem identity_fields_never_change w c iid m :
  reachable now_iso uuid4 wf_name w → fresh_id uuid4 c w →
  meta_ns w !! iid = Some m →
  ∃ m', get_meta iid (exec now_iso uuid4 wf_name c w) = Some m' ∧
    instance_id m' = instance_id m ∧ customer_id m' = customer_id m ∧
    workflow_name m' = workflow_name m ∧ started_by m' = started_by m ∧
    (truthy_str (start_time m) = true → start_time m' = start_time m).
Proof.
  intros Hr Hfresh Hm. pose proof (reachable_consistent w Hr) as Hc.
  destruct (decide (target uuid4 c w = iid)) as [Heq|Hne].
  - destruct c as [cust by_|iid' actor updates]; cbn [exec target fresh_id] in *; subst iid.
    + congruence.
    + destruct Hc as [HA HB]. destruct (HB iid' m Hm) as (Hid & [s Hs] & _).
      destruct (plan_total (updates ∪ bag_of s)) as (k & nf & pr & Hplan).
      rewrite (resume_spec iid' actor updates w s m k nf pr Hs Hm Hid Hplan). cbn [fst].
      unfold get_meta, run_world. cbn [meta_ns]. rewrite lookup_insert_eq.
      eexists. split; [reflexivity|].
      rewrite instance_id_project.
      destruct (project_identity m actor
                  (settle now_iso (clock (resume_world now_iso w iid' actor s updates)) k nf
                     (resume_state s updates))
                  (now_iso (clock_after
                     (clock (resume_world now_iso w iid' actor s updates)) k nf)))
        as (H1 & H2 & H3 & _).
      rewrite H1, H2, H3. repeat split; try reflexivity.
      apply start_time_project.
  - destruct (exec_frame c w iid Hc Hne) as (H1 & _). unfold get_meta. rewrite H1.
    exists m. repeat split; try reflexivity. exact Hm.
Qed.

(** X11: the start time of an execution state is written once: a [resume]
    that returns leaves the state's [start_time] as it was. *)
Theorem resume_keeps_start_time w iid actor updates s t out :
  reachable now_iso uuid4 wf_name w →
  state_ns w !! iid = Some s → sm_start_time (meta_of s) = Some t →
  (resume now_iso iid actor updates w).2 = inr out →
  ∃ s', get_state iid (resume now_iso iid actor updates w).1 = Some s' ∧
        sm_start_time (meta_of s') = Some t.
Proof.
  intros Hr Hs Ht _. destruct (reachable_consistent w Hr) as [HA HB].
  destruct (HA iid s Hs) as (_ & m & Hm & _). destruct (HB iid m Hm) as (Hid & _).
  destruct (plan_total (updates ∪ bag_of s)) as (k & nf & pr & Hplan).
  rewrite (resume_spec iid actor updates w s m k nf pr Hs Hm Hid Hplan). cbn [fst].
  unfold get_state, run_world. cbn [state_ns]. rewrite lookup_insert_eq.
  eexists. split; [reflexivity|].
  unfold settle. change (meta_of (resume_state s updates)) with (meta_of s).
  destruct (closes nf) as [[st res]|]; cbn; rewrite Ht; reflexivity.
Qed.

Lemma walk_count fuel : ∀ n bag k nf pr,
  walk fuel n bag = Some (k, nf, pr) → (1 ≤ k ∧ k ≤ S (rank n))%nat.
Proof.
  induction fuel as [|fuel IH]; intros n bag k nf pr H; [discriminate|].
  cbn [walk] in H. destruct (asks n) as [[key prompt]|]; [|injection H as <- _ _; lia].
  destruct (has_key bag key); [|injection H as <- _ _; lia].
  destruct (guard n bag) as [n'|] eqn:Eg; [|injection H as <- _ _; lia].
  destruct (walk fuel n' bag) as [[[k' nf'] pr']|] eqn:Ew; [|discriminate].
  injection H as <- _ _. apply guard_rank in Eg. apply IH in Ew. lia.
Qed.

(** X12: a run of the graph always comes back, whatever the state: it
    never reaches the recursion limit, and it reads the clock at least once
    and at most seven times (once per node visited, of which there are at
    most six, and once more at a closing node). *)
Theorem graph_run_is_short c s :
  ∃ c' s' r, invoke now_iso c s = Some (c', s', r) ∧ (c < c' ∧ c' ≤ c + 7)%nat.
Proof.
  destruct (plan_total (bag_of s)) as (k & nf & pr & Hplan).
  unfold invoke. rewrite traverse_walk. unfold plan in Hplan. rewrite Hplan.
  eexists _, _, _. split; [reflexivity|].
  apply walk_count in Hplan. unfold entry_point in Hplan. cbn [rank] in Hplan.
  unfold clock_after. destruct (closes nf); lia.
Qed.

(** *** Where a run ends *)

Lemma get_is_has_key bag k lit : get_is bag k lit = true → has_key bag k = true.
Proof. unfold get_is, has_key. destruct (bag !! k); [reflexivity|discriminate]. Qed.

Lemma get_is_other bag k a b :
  get_is bag k a = true → a ≠ b → get_is bag k b = false.
Proof.
  unfold get_is. destruct (bag !! k) as [[| | |x|]|]; try discriminate.
  intros Ha Hne. apply String.eqb_eq in Ha. subst x. apply String.eqb_neq, Hne.
Qed.

Lemma get_truthy_has_key bag k : get_truthy bag k = true → has_key bag k = true.
Proof. unfold get_truthy, has_key. destruct (bag !! k); [reflexivity|discriminate]. Qed.

Lemma plan_refusal bag :
  get_is bag "validate" "no" = true → plan bag = Some (2, CancelRequest, None).
Proof.
  intros H. unfold plan, recursion_limit, entry_point. cbn [walk asks].
  rewrite (get_is_has_key _ _ _ H). cbn [guard].
  rewrite (get_is_other _ _ _ "yes" H) by discriminate. rewrite H. reflexivity.
Qed.

Lemma walk_pass fuel n n' bag key p k nf pr :
  asks n = Some (key, p) → has_key bag key = true → guard n bag = Some n' →
  walk fuel n' bag = Some (k, nf, pr) →
  walk (S fuel) n bag = Some (S k, nf, pr).
Proof. intros Ha Hk Hg Hw. cbn [walk]. rewrite Ha, Hk, Hg, Hw. reflexivity. Qed.

Lemma plan_fulfil bag :
  answers_to_fulfil bag → ∃ k, plan bag = Some (k, FulfillCase, None).
Proof.
  intros (Hv & Hg & Hd & Hp). unfold plan, recursion_limit, entry_point.
  assert (Hfin : ∀ f, walk (S (S f)) ApplySuppression bag = Some (2, FulfillCase, None)).
  { intros f. eapply (walk_pass _ ApplySuppression FulfillCase);
      [reflexivity|exact (get_is_has_key _ _ _ Hp)| |reflexivity].
    cbn [guard]. rewrite Hp. reflexivity. }
  assert (Hfrom : ∀ f k, walk f IdentifyAccounts bag = Some (k, FulfillCase, None) →
                  walk (S (S f)) ValidateRequest bag = Some (S (S k), FulfillCase, None)).
  { intros f k Hw.
    eapply (walk_pass _ ValidateRequest GatherClaimInfo);
      [reflexivity|exact (get_is_has_key _ _ _ Hv)| |].
    { cbn [guard]. rewrite Hv. reflexivity. }
    eapply (walk_pass _ GatherClaimInfo IdentifyAccounts);
      [reflexivity|exact (get_truthy_has_key _ _ Hg)| |exact Hw].
    cbn [guard]. rewrite Hg. reflexivity. }
  destruct Hd as [Hs|[Hh Hr]]; eexists; apply Hfrom.
  - eapply (walk_pass _ IdentifyAccounts ApplySuppression);
      [reflexivity|exact (get_is_has_key _ _ _ Hs)| |apply Hfin].
    cbn [guard].
    rewrite (get_is_other _ _ _ "cancel" Hs), (get_is_other _ _ _ "hold" Hs) by discriminate.
    rewrite Hs. reflexivity.
  - eapply (walk_pass _ IdentifyAccounts HoldRequest);
      [reflexivity|exact (get_is_has_key _ _ _ Hh)| |].
    { cbn [guard]. rewrite (get_is_other _ _ _ "cancel" Hh) by discriminate.
      rewrite Hh. reflexivity. }
    eapply (walk_pass _ HoldRequest ApplySuppression);
      [reflexivity|exact (get_is_has_key _ _ _ Hr)| |apply Hfin].
    cbn [guard]. rewrite Hr. reflexivity.
Qed.

(** X13: if the bag, with the updates of a [resume] merged in, says
    [validate = no], the call ends the instance as aborted at Cancel CWD
    Request with the result ["Workflow aborted."], whatever else the bag
    holds and whatever the instance's status was. *)
Theorem refusal_aborts w iid actor updates s :
  reachable now_iso uuid4 wf_name w → state_ns w !! iid = Some s →
  get_is (updates ∪ bag_of s) "validate" "no" = true →
  let r := resume now_iso iid actor updates w in
  r.2 = inr (SAborted "Cancel CWD Request" (Some (VStr "Workflow aborted.")) iid) ∧
  ∃ m', get_meta iid r.1 = Some m' ∧ status m' = "aborted" ∧
        last_node m' = Some "Cancel CWD Request".
Proof.
  intros Hr Hs Hno. cbv zeta. destruct (reachable_consistent w Hr) as [HA HB].
  destruct (HA iid s Hs) as (_ & m & Hm & _). destruct (HB iid m Hm) as (Hid & _).
  destruct (resume_next w iid actor updates s m _ _ _ Hs Hm Hid (plan_refusal _ Hno))
    as (s' & m' & Ho & _ & Hm' & _ & Hbag & Hst & _ & Hstat & Hln & _).
  split.
  - rewrite Ho. unfold summarize. rewrite Hst, Hbag. unfold bag_after. cbn [closes].
    rewrite lookup_insert_eq. reflexivity.
  - exists m'. auto.
Qed.

(** X14: if the bag, with the updates of a [resume] merged in, answers
    every question on the way to Fulfill, the call ends the instance as
    completed at Fulfill Case and Detect with the result ["Fulfilled and
    detection complete."], whatever the instance's status was. *)
Theorem fulfilment_completes w iid actor updates s :
  reachable now_iso uuid4 wf_name w → state_ns w !! iid = Some s →
  answers_to_fulfil (updates ∪ bag_of s) →
  let r := resume now_iso iid actor updates w in
  r.2 = inr (SCompleted "Fulfill Case and Detect"
               (Some (VStr "Fulfilled and detection complete.")) iid) ∧
  ∃ m', get_meta iid r.1 = Some m' ∧ status m' = "completed" ∧
        last_node m' = Some "Fulfill Case and Detect".
Proof.
  intros Hr Hs Hans. cbv zeta. destruct (reachable_consistent w Hr) as [HA HB].
  destruct (HA iid s Hs) as (_ & m & Hm & _). destruct (HB iid m Hm) as (Hid & _).
  destruct (plan_fulfil _ Hans) as (k & Hplan).
  destruct (resume_next w iid actor updates s m _ _ _ Hs Hm Hid Hplan)
    as (s' & m' & Ho & _ & Hm' & _ & Hbag & Hst & _ & Hstat & Hln & _).
  split.
  - rewrite Ho. unfold summarize. rewrite Hst, Hbag. unfold bag_after. cbn [closes].
    rewrite lookup_insert_eq. reflexivity.
  - exists m'. auto.
Qed.

Lemma walk_reaches fuel : ∀ n0 bag k nf pr,
  reaches bag n0 → walk fuel n0 bag = Some (k, nf, pr) →
  reaches bag nf ∧
  match pr with
  | Some p => ∃ key, asks nf = Some (key, p) ∧ bag !! key = None
  | None => True
  end.
Proof.
  induction fuel as [|fuel IH]; intros n0 bag k nf pr Hreach H; [discriminate|].
  cbn [walk] in H. destruct (asks n0) as [[key prompt]|] eqn:Ea;
    [|injection H as _ <- <-; auto].
  destruct (has_key bag key) eqn:Ek.
  - destruct (guard n0 bag) as [n'|] eqn:Eg; [|injection H as _ <- <-; auto].
    destruct (walk fuel n' bag) as [[[k' nf'] pr']|] eqn:Ew; [|discriminate].
    injection H as _ <- <-. eapply IH; [|exact Ew].
    eapply reaches_next; eassumption.
  - injection H as _ <- <-. split; [exact Hreach|]. exists key. split; [exact Ea|].
    unfold has_key in Ek. destruct (bag !! key); [discriminate|reflexivity].
Qed.

Lemma asks_not_closing n key p : asks n = Some (key, p) → closes n = None.
Proof. destruct n; cbn; congruence. Qed.

(** X15: a [resume] returns a pause only for a missing answer: when it
    returns the paused summary with prompt [p], the run has reached a node
    that asks with [p] for a key the merged bag does not hold; the metadata
    then names that node as [last_node] and keeps the status it had. *)
Theorem pause_means_missing_key w iid actor updates s m p iid' :
  reachable now_iso uuid4 wf_name w →
  state_ns w !! iid = Some s → meta_ns w !! iid = Some m →
  let r := resume now_iso iid actor updates w in
  r.2 = inr (SPaused p iid') →
  ∃ n key, asks n = Some (key, p) ∧ (updates ∪ bag_of s) !! key = None ∧
    reaches (updates ∪ bag_of s) n ∧
    ∃ m', get_meta iid r.1 = Some m' ∧ last_node m' = Some (node_name n) ∧
          status m' = status m.
Proof.
  intros Hr Hs Hm. cbv zeta. destruct (reachable_consistent w Hr) as [HA HB].
  destruct (HB iid m Hm) as (Hid & _).
  destruct (HA iid s Hs) as (_ & m0 & Hm0 & Hstm & _).
  assert (m0 = m) by congruence. subst m0.
  destruct (plan_total (updates ∪ bag_of s)) as (k & nf & pr & Hplan).
  destruct (resume_next w iid actor updates s m k nf pr Hs Hm Hid Hplan)
    as (s' & m' & Ho & _ & Hm' & _ & _ & _ & _ & Hstat & Hln & _).
  rewrite Ho. intros [= Hsum].
  assert (pr = Some p) as ->.
  { unfold summarize in Hsum. destruct pr as [q|]; [congruence|].
    repeat match type of Hsum with (if ?b then _ else _) = _ => destruct b end;
      discriminate. }
  destruct (walk_reaches _ _ _ _ _ _ (reaches_entry _) Hplan) as (Hreach & key & Ha & Hk).
  exists nf, key. split; [exact Ha|]. split; [exact Hk|]. split; [exact Hreach|].
  exists m'. split; [exact Hm'|]. split; [exact Hln|].
  rewrite Hstat, Hstm. unfold status_after. rewrite (asks_not_closing _ _ _ Ha). reflexivity.
Qed.

(** *** What [start] creates, and how the step history follows the runs *)

(** X16: [start] on any store creates the instance under the id it
    returns: an execution state with an empty bag, status [in_progress],
    standing at Validate Request; metadata carrying the customer, workflow
    name and starter given, with the starter as last actor and a step
    history of one entry for Validate Request; and the id is in the
    index. *)
Theorem start_creates_instance cust by_ w :
  let r := start now_iso uuid4 wf_name cust by_ w in
  let iid := uuid4 (uuids w) in
  (∃ s, get_state iid r.1 = Some s ∧ st_bag s = Some ∅ ∧
        st_instance_id s = iid ∧ st_customer_id s = cust ∧
        sm_status (meta_of s) = Some "in_progress" ∧
        sm_last_node (meta_of s) = Some "Validate Request") ∧
  (∃ m ts, get_meta iid r.1 = Some m ∧
        instance_id m = iid ∧ customer_id m = cust ∧ workflow_name m = wf_name ∧
        started_by m = by_ ∧ last_actor m = Some by_ ∧
        last_node m = Some "Validate Request" ∧
        steps_history m = [HistoryEntry ts "Validate Request" by_ "in_progress"]) ∧
  iid ∈ index_of r.1.
Proof.
  cbv zeta. rewrite start_spec. cbn [fst].
  unfold get_state, get_meta, index_of, run_world. cbn [state_ns meta_ns index_ns].
  rewrite !lookup_insert_eq. split; [|split].
  - eexists. split; [reflexivity|]. repeat split.
  - eexists _, _. split; [reflexivity|].
    unfold project, appended. cbn. repeat split.
  - unfold start_world. cbn [index_ns]. rewrite index_of_add.
    destruct (bool_decide_reflect
                (uuid4 (uuids w) ∈ default [] (index_ns w !! "instances"))) as [Hin|Hnin].
    + exact Hin.
    + apply elem_of_app. right. apply list_elem_of_singleton. reflexivity.
Qed.

Lemma history_tip_project m actor s ts nf :
  sm_last_node (meta_of s) = Some (node_name nf) →
  Forall (λ h, named_node (h_node h)) (steps_history m) →
  history_tip (project m actor s ts).
Proof.
  intros Hln Hall.
  assert (Ht : truthy_str (sm_last_node (meta_of s)) = true).
  { rewrite Hln. apply node_name_truthy. }
  split; [|split].
  - rewrite prev_node_project, last_node_project by exact Ht. reflexivity.
  - exists nf. rewrite last_node_project by exact Ht. exact Hln.
  - rewrite history_project. apply Forall_app. split; [exact Hall|].
    destruct (appended m actor s); [|constructor].
    constructor; [|constructor]. cbn [h_node]. rewrite Hln. exists nf. reflexivity.
Qed.

Lemma reachable_history_tip w :
  reachable now_iso uuid4 wf_name w →
  ∀ iid m, meta_ns w !! iid = Some m → history_tip m.
Proof.
  revert w. apply (reachable_run_ind (λ w, ∀ iid m, meta_ns w !! iid = Some m → history_tip m)).
  - intros iid m H. cbn in H. rewrite lookup_empty in H. discriminate.
  - intros w cust by_ Hr IH iid m. unfold run_world, start_world. cbn [meta_ns clock].
    destruct (decide (iid = uuid4 (uuids w))) as [->|Hne].
    + rewrite lookup_insert_eq. intros [= <-].
      eapply history_tip_project; [apply settle_last_node|constructor].
    + rewrite !lookup_insert_ne by congruence. apply IH.
  - intros w iid actor updates s m k nf pr Hr IH Hs Hm Hid Hplan iid' m'.
    unfold run_world, resume_world. cbn [meta_ns clock].
    destruct (decide (iid' = iid)) as [->|Hne].
    + rewrite lookup_insert_eq. intros [= <-].
      eapply history_tip_project; [apply settle_last_node|].
      destruct (IH iid m Hm) as (_ & _ & H). exact H.
    + rewrite !lookup_insert_ne by congruence. apply IH.
Qed.

(** X17: in every store the engine can reach, the step history of an
    instance is not empty, its last entry names the node the metadata gives
    as [last_node], and every entry names one of the seven nodes of the
    graph. *)
Theorem step_history_ends_at_last_node w iid m :
  reachable now_iso uuid4 wf_name w → meta_ns w !! iid = Some m →
  (∃ h n, last (steps_history m) = Some h ∧ h_node h = node_name n ∧
          last_node m = Some (node_name n)) ∧
  Forall (λ h, named_node (h_node h)) (steps_history m).
Proof.
  intros Hr Hm. destruct (reachable_history_tip w Hr iid m Hm) as (Hprev & [n Hn] & Hall).
  split; [|exact Hall].
  unfold prev_node in Hprev. rewrite Hn in Hprev.
  destruct (last (steps_history m)) as [h|]; [|discriminate].
  exists h, n. cbn in Hprev. injection Hprev as Hh. auto.
Qed.

(** X18: a [resume] that returns records who acted and where the run
    stopped: the metadata's last actor is the caller; if the run stops at
    the node the instance was at, the step history is unchanged, and
    otherwise it gains exactly one entry, naming the new [last_node], the
    caller and the new status. *)
Theorem resume_records_the_step w iid actor updates m out :
  reachable now_iso uuid4 wf_name w → meta_ns w !! iid = Some m →
  let r := resume now_iso iid actor updates w in
  r.2 = inr out →
  ∃ m', get_meta iid r.1 = Some m' ∧ last_actor m' = Some actor ∧
    ((last_node m' = last_node m ∧ steps_history m' = steps_history m) ∨
     (last_node m' ≠ last_node m ∧
      ∃ e, steps_history m' = steps_history m ++ [e] ∧
           last_node m' = Some (h_node e) ∧ h_actor e = actor ∧
           h_status e = status m')).
Proof.
  intros Hr Hm. cbv zeta. intros _.
  destruct (reachable_consistent w Hr) as [HA HB].
  destruct (HB iid m Hm) as (Hid & [s Hs] & _).
  destruct (reachable_history_tip w Hr iid m Hm) as (Hprev & _ & _).
  destruct (plan_total (updates ∪ bag_of s)) as (k & nf & pr & Hplan).
  rewrite (resume_spec iid actor updates w s m k nf pr Hs Hm Hid Hplan). cbn [fst].
  unfold get_meta, run_world. cbn [meta_ns]. rewrite lookup_insert_eq.
  set (s1 := settle now_iso (clock (resume_world now_iso w iid actor s updates)) k nf
               (resume_state s updates)).
  set (ts := now_iso (clock_after (clock (resume_world now_iso w iid actor s updates)) k nf)).
  assert (Hln : sm_last_node (meta_of s1) = Some (node_name nf)) by apply settle_last_node.
  assert (Ht : truthy_str (sm_last_node (meta_of s1)) = true).
  { rewrite Hln. apply node_name_truthy. }
  eexists. split; [reflexivity|].
  destruct (project_identity m actor s1 ts) as (_ & _ & _ & Hact).
  split; [exact Hact|].
  rewrite last_node_project by exact Ht. rewrite history_project.
  unfold appended. rewrite Ht. cbn [andb].
  change (prev_node (copy_fields m actor s1)) with (prev_node m). rewrite Hprev.
  destruct (bool_decide_reflect (sm_last_node (meta_of s1) = last_node m)) as [He|Hne];
    cbn [negb].
  - left. split; [exact He|apply app_nil_r].
  - right. split; [exact Hne|]. eexists. split; [reflexivity|].
    cbn [h_node h_actor h_status]. rewrite Hln. cbn. rewrite status_project.
    repeat split.
Qed.

(** *** The shape of the event log *)

Lemma well_logged_two iid l e1 e2 :
  (l = [] → ev_event e1 = "created") →
  (l ≠ [] → well_logged iid l) →
  ev_instance_id e1 = iid → ev_instance_id e2 = iid →
  well_logged iid ((l ++ [e1]) ++ [e2]).
Proof.
  intros Hnil Hcons H1 H2. destruct l as [|e0 rest].
  - split; [|split].
    + exists e1, [e2]. split; [reflexivity|]. apply Hnil. reflexivity.
    + repeat constructor; assumption.
    + exists 1. reflexivity.
  - destruct (Hcons ltac:(discriminate)) as ((e & rest' & Heq & Hk) & Hall & [n Hn]).
    split; [|split].
    + injection Heq as <- <-. eexists _, _. split; [reflexivity|exact Hk].
    + rewrite !Forall_app. repeat split; try assumption; repeat constructor; assumption.
    + exists (S n). rewrite !length_app. cbn [List.length] in *. lia.
Qed.

Lemma run_event_instance ts iid actor st p n :
  ev_instance_id (with_node (run_event ts iid actor st p) n) = iid.
Proof. destruct p; reflexivity. Qed.

Lemma reachable_well_logged w :
  reachable now_iso uuid4 wf_name w →
  (∀ iid, is_Some (meta_ns w !! iid) → is_Some (events_ns w !! iid)) ∧
  (∀ iid l, events_ns w !! iid = Some l → well_logged iid l).
Proof.
  revert w. apply (reachable_run_ind (λ w,
    (∀ iid, is_Some (meta_ns w !! iid) → is_Some (events_ns w !! iid)) ∧
    (∀ iid l, events_ns w !! iid = Some l → well_logged iid l))).
  - split.
    + intros iid [m H]. cbn in H. rewrite lookup_empty in H. discriminate.
    + intros iid l H. cbn in H. rewrite lookup_empty in H. discriminate.
  - intros w cust by_ Hr [IH1 IH2].
    unfold run_world, start_world. cbn [meta_ns events_ns clock]. split.
    + intros iid. destruct (decide (iid = uuid4 (uuids w))) as [->|Hne].
      * rewrite !lookup_insert_eq. eauto.
      * rewrite !lookup_insert_ne by congruence. apply IH1.
    + intros iid l. destruct (decide (iid = uuid4 (uuids w))) as [->|Hne].
      * rewrite !lookup_insert_eq. cbn [default from_option id]. intros [= <-].
        apply well_logged_two; try reflexivity; try apply run_event_instance.
        intros Hne. destruct (events_ns w !! uuid4 (uuids w)) as [l0|] eqn:E;
          [|contradiction]. exact (IH2 _ _ E).
      * rewrite !lookup_insert_ne by congruence. apply IH2.
  - intros w iid actor updates s m k nf pr Hr [IH1 IH2] Hs Hm Hid Hplan.
    unfold run_world, resume_world. cbn [meta_ns events_ns clock]. split.
    + intros iid'. destruct (decide (iid' = iid)) as [->|Hne].
      * rewrite !lookup_insert_eq. eauto.
      * rewrite !lookup_insert_ne by congruence. apply IH1.
    + intros iid' l. destruct (decide (iid' = iid)) as [->|Hne].
      * rewrite !lookup_insert_eq. cbn [default from_option id]. intros [= <-].
        destruct (IH1 iid ltac:(eauto)) as [l0 E]. rewrite E. cbn [default from_option id].
        pose proof (IH2 _ _ E) as Hl0.
        apply well_logged_two; try reflexivity; try apply run_event_instance.
        -- intros ->. destruct Hl0 as ((e & rest & Heq & _) & _). discriminate.
        -- intros _. exact Hl0.
      * rewrite !lookup_insert_ne by congruence. apply IH2.
Qed.

(** X19: in every store the engine can reach, the event log of an
    instance opens with its [created] event, every event of the log
    carries the instance's id, and the log has an even number of events
    (each call adds a command and an outcome). *)
Theorem event_log_shape w iid :
  reachable now_iso uuid4 wf_name w → is_Some (get_meta iid w) →
  (∃ e rest, history iid w = e :: rest ∧ ev_event e = "created") ∧
  Forall (λ e, ev_instance_id e = iid) (history iid w) ∧
  Nat.Even (List.length (history iid w)).
Proof.
  intros Hr Hm. destruct (reachable_well_logged w Hr) as [H1 H2].
  destruct (H1 iid Hm) as [l E]. unfold history. rewrite E. exact (H2 iid l E).
Qed.

(** *** The request layer *)

(** X20: when [provide_human_input] rejects a request it has not touched
    the store: a 404 means the instance has no metadata, a 400 means the
    metadata's [last_node] is not Gather Claim Info or Validate Request,
    and in both cases the store is the one it was given. *)
Theorem api_rejection_leaves_store iid actor updates w code detail :
  (provide_human_input now_iso iid actor updates w).2 = inl (HTTPException code detail) →
  (provide_human_input now_iso iid actor updates w).1 = w ∧
  ((code = 404 ∧ get_meta iid w = None) ∨
   (code = 400 ∧ ∃ m, get_meta iid w = Some m ∧
                      last_node m ≠ Some "Gather Claim Info" ∧
                      last_node m ≠ Some "Validate Request")).
Proof.
  unfold provide_human_input. destruct (get_meta iid w) as [m|] eqn:Hm.
  - destruct (in_allowed (last_node m)) eqn:Ha; cbn [negb].
    + destruct (resume now_iso iid actor updates w) as [w' [e|out]]; discriminate.
    + cbn [fst snd]. intros [= <- _]. split; [reflexivity|]. right.
      split; [reflexivity|]. exists m. split; [reflexivity|].
      split; intros E; rewrite E in Ha; discriminate Ha.
  - cbn [fst snd]. intros [= <- _]. auto.
Qed.

(** X21: on a store the engine can reach, a request for an instance that
    stands at Validate Request or Gather Claim Info is passed to [resume]
    and its summary is returned with the instance id; the store afterwards
    is the one [resume] leaves, and the engine raises nothing. *)
Theorem api_accepts_human_steps iid actor updates w m :
  reachable now_iso uuid4 wf_name w → get_meta iid w = Some m →
  in_allowed (last_node m) = true →
  ∃ out, resume now_iso iid actor updates w =
           ((resume now_iso iid actor updates w).1, inr out) ∧
         provide_human_input now_iso iid actor updates w =
           ((resume now_iso iid actor updates w).1, inr (iid, out)).
Proof.
  intros Hr Hm Ha. destruct (reachable_consistent w Hr) as [HA HB].
  unfold get_meta in Hm. destruct (HB iid m Hm) as (Hid & [s Hs] & _).
  destruct (plan_total (updates ∪ bag_of s)) as (k & nf & pr & Hplan).
  unfold provide_human_input, get_meta. rewrite Hm, Ha. cbn [negb].
  rewrite (resume_spec iid actor updates w s m k nf pr Hs Hm Hid Hplan). cbn [fst].
  eexists. split; reflexivity.
Qed.

Lemma walk_rank fuel : ∀ n bag k nf pr,
  walk fuel n bag = Some (k, nf, pr) → (rank nf ≤ rank n)%nat.
Proof.
  induction fuel as [|fuel IH]; intros n bag k nf pr H; [discriminate|].
  cbn [walk] in H. destruct (asks n) as [[key prompt]|]; [|injection H as _ <- _; lia].
  destruct (has_key bag key); [|injection H as _ <- _; lia].
  destruct (guard n bag) as [n'|] eqn:Eg; [|injection H as _ <- _; lia].
  destruct (walk fuel n' bag) as [[[a b] c]|] eqn:Ew; [|discriminate].
  injection H as _ <- _. apply guard_rank in Eg. apply IH in Ew. lia.
Qed.

(** X22: once a request has taken an instance past Gather Claim Info, the
    request layer refuses every further request for it: if the merged bag
    says [validate = yes] and gives truthy claim details, the request is
    served, and any request made on the store it leaves is rejected with
    400 and leaves that store unchanged. *)
Theorem api_locks_after_claim_details iid actor updates w m s :
  reachable now_iso uuid4 wf_name w →
  get_meta iid w = Some m → in_allowed (last_node m) = true →
  get_state iid w = Some s →
  get_is (updates ∪ bag_of s) "validate" "yes" = true →
  get_truthy (updates ∪ bag_of s) "claim_details" = true →
  ∃ w' out, provide_human_input now_iso iid actor updates w = (w', inr (iid, out)) ∧
    ∀ actor' updates', ∃ detail,
      provide_human_input now_iso iid actor' updates' w' =
      (w', inl (HTTPException 400 detail)).
Proof.
  intros Hr Hm Ha Hs Hv Hg. destruct (reachable_consistent w Hr) as [HA HB].
  unfold get_meta in Hm. unfold get_state in Hs. destruct (HB iid m Hm) as (Hid & _).
  destruct (plan_total (updates ∪ bag_of s)) as (k & nf & pr & Hplan).
  assert (Hnf : in_allowed (Some (node_name nf)) = false).
  { destruct (walk_total 23 IdentifyAccounts (updates ∪ bag_of s)) as [[[k' nf'] pr'] Ew];
      [cbn; lia|].
    assert (Hfull : plan (updates ∪ bag_of s) = Some (S (S k'), nf', pr')).
    { unfold plan, recursion_limit, entry_point.
      eapply (walk_pass _ ValidateRequest GatherClaimInfo);
        [reflexivity|exact (get_is_has_key _ _ _ Hv)| |].
      { cbn [guard]. rewrite Hv. reflexivity. }
      eapply (walk_pass _ GatherClaimInfo IdentifyAccounts);
        [reflexivity|exact (get_truthy_has_key _ _ Hg)| |exact Ew].
      cbn [guard]. rewrite Hg. reflexivity. }
    rewrite Hfull in Hplan. injection Hplan as _ <- _.
    apply walk_rank in Ew. destruct nf'; cbn in Ew; try lia; reflexivity. }
  unfold provide_human_input at 1. unfold get_meta. rewrite Hm, Ha. cbn [negb].
  rewrite (resume_spec iid actor updates w s m k nf pr Hs Hm Hid Hplan).
  eexists _, _. split; [reflexivity|].
  intros actor' updates'. unfold provide_human_input, get_meta, run_world. cbn [meta_ns].
  rewrite lookup_insert_eq. rewrite last_node_project.
  - rewrite settle_last_node, Hnf. cbn [negb]. eexists. reflexivity.
  - rewrite settle_last_node. apply node_name_truthy.
Qed.

(** *** The diagram *)

Lemma node_id_named x : named_node x → is_Some (node_id x).
Proof. intros [n ->]. destruct n; cbn; eauto. Qed.

Lemma omap_all_fmap {A B} (f : A → option B) (d : B) (l : list A) :
  Forall (λ x, is_Some (f x)) l → omap f l = (λ x, default d (f x)) <$> l.
Proof.
  induction 1 as [|x l [b Hb] Hl IH]; [reflexivity|].
  cbn [omap list_omap fmap list_fmap]. rewrite Hb. cbn. f_equal. exact IH.
Qed.

(** X23: for the metadata of any instance of a reachable store, the
    dashboard draws the diagram of the metadata as it is, and the diagram's
    style lines are one visited-style per step-history entry, in order,
    followed by one highlight line for the node of the last entry: no
    recorded step is skipped and the highlighted node is the one the run
    stopped at. *)
Theorem diagram_follows_step_history w iid m :
  reachable now_iso uuid4 wf_name w → meta_ns w !! iid = Some m →
  dashboard_meta m = m ∧
  ∃ h, last (steps_history m) = Some h ∧
       last_node m = Some (h_node h) ∧
       Forall (λ e, is_Some (node_id (h_node e))) (steps_history m) ∧
       visited_styles m =
         ((λ e, visited_style (default "" (node_id (h_node e)))) <$> steps_history m) ++
         [current_style (default "" (node_id (h_node h)))].
Proof.
  intros Hr Hm. destruct (reachable_history_tip w Hr iid m Hm) as (Hprev & [n Hn] & Hall).
  assert (Hnamed : Forall (λ e, is_Some (node_id (h_node e))) (steps_history m)).
  { eapply Forall_impl; [exact Hall|]. intros e He. apply node_id_named, He. }
  split.
  - unfold dashboard_meta. rewrite Hn, node_name_truthy. reflexivity.
  - unfold prev_node in Hprev. rewrite Hn in Hprev.
    destruct (last (steps_history m)) as [h|] eqn:El; [|discriminate].
    cbn in Hprev. injection Hprev as Hh.
    exists h. split; [reflexivity|]. split; [rewrite Hn, Hh; reflexivity|].
    split; [exact Hnamed|].
    unfold visited_styles. f_equal.
    + rewrite (omap_all_fmap _ (visited_style "")).
      * apply list_fmap_ext. intros i e _. destruct (node_id (h_node e)); reflexivity.
      * eapply Forall_impl; [exact Hnamed|]. intros e [x ->]. cbn. eauto.
    + assert (Hcur : current_node m = h_node h).
      { unfold current_node. rewrite Hn, Hh.
        destruct (String.eqb (node_name n) "") eqn:E; [|reflexivity].
        destruct n; discriminate E. }
      rewrite Hcur. destruct (node_id_named (h_node h)) as [x ->];
        [rewrite Hh; exists n; reflexivity|]. reflexivity.
Qed.

(** *** Two more edges *)

(** X24: an unmatched guard value on an instance that is already finished
    does not report [in_progress]: when the metadata status is [completed]
    or [aborted] and the merged bag takes the run to a node whose value no
    branch accepts, the [resume] returns the finished summary again, now
    naming the node the run stalled at, and the status stays as it was. *)
Theorem stalled_run_repeats_finished_status w iid s m actor updates n :
  reachable now_iso uuid4 wf_name w →
  state_ns w !! iid = Some s → meta_ns w !! iid = Some m →
  terminal_status (status m) = true →
  unmatched_at (updates ∪ bag_of s) n →
  let r := resume now_iso iid actor updates w in
  let res := (updates ∪ bag_of s) !! "result" in
  r.2 = inr (if String.eqb (status m) "completed"
             then SCompleted (node_name n) res iid
             else SAborted (node_name n) res iid) ∧
  ∃ m', get_meta iid r.1 = Some m' ∧ status m' = status m ∧
        last_node m' = Some (node_name n).
Proof.
  intros Hr Hs Hm Hterm Hun. cbv zeta.
  destruct (reachable_consistent w Hr) as [HA HB].
  destruct (HB iid m Hm) as (Hid & _).
  destruct (HA iid s Hs) as (_ & m0 & Hm0 & Hst & _).
  assert (m0 = m) by congruence. subst m0.
  destruct (unmatched_plan _ _ Hun) as (Hcl & k & Hplan).
  destruct (resume_next w iid actor updates s m k n None Hs Hm Hid Hplan)
    as (s' & m' & Ho & _ & Hm' & _ & Hbag & Hst' & _ & Hstat' & Hln & _).
  assert (Hafter : status_after n (Some (status m)) = status m).
  { unfold status_after. rewrite Hcl. reflexivity. }
  rewrite Hst, Hafter in Hst', Hstat'.
  split.
  - rewrite Ho. unfold summarize. rewrite Hst', Hbag. cbn [default from_option id].
    unfold bag_after. rewrite Hcl.
    destruct (String.eqb (status m) "completed") eqn:E1; [reflexivity|].
    unfold terminal_status in Hterm. rewrite E1 in Hterm. cbn [orb] in Hterm.
    rewrite Hterm. reflexivity.
  - exists m'. auto.
Qed.

Lemma add_index_prefix iid ix :
  default [] (ix !! "instances") `prefix_of` default [] (add_index iid ix !! "instances").
Proof.
  rewrite index_of_add. destruct (bool_decide _); [reflexivity|]. eexists. reflexivity.
Qed.

(** X25: the index keeps insertion order and is only ever appended to: the
    index before any call is a prefix of the index after it, and a
    [resume] leaves it exactly as it was. *)
Theorem index_append_only w c :
  reachable now_iso uuid4 wf_name w →
  index_of w `prefix_of` index_of (exec now_iso uuid4 wf_name c w) ∧
  (∀ iid actor updates, c = Resume iid actor updates →
     index_of (exec now_iso uuid4 wf_name c w) = index_of w).
Proof.
  intros Hr. destruct (reachable_consistent w Hr) as [HA HB].
  destruct c as [cust by_|iid actor updates]; cbn [exec].
  - split; [|discriminate]. rewrite start_spec. cbn [fst].
    unfold index_of, run_world, start_world. cbn [index_ns]. apply add_index_prefix.
  - assert (Heq : index_of (resume now_iso iid actor updates w).1 = index_of w).
    { destruct (state_ns w !! iid) as [s|] eqn:Hs;
        [|rewrite resume_unknown by exact Hs; reflexivity].
      destruct (HA iid s Hs) as (_ & m & Hm & _). destruct (HB iid m Hm) as (Hid & _).
      destruct (plan_total (updates ∪ bag_of s)) as (k & nf & pr & Hplan).
      rewrite (resume_spec iid actor updates w s m k nf pr Hs Hm Hid Hplan). reflexivity. }
    split; [rewrite Heq; reflexivity|]. intros ? ? ? _. exact Heq.
Qed.

End Properties.

(** C6 fails as stated: with [claim_details] set to the empty string the
    node returns the state and the guard selects the terminal marker. *)
Lemma gather_guard_counterexample :
  ¬ (∀ (now : nat → string) c s c' s' r,
       gather_claim_info now c s = (c', s', Dict r) →
       route GatherClaimInfo (Dict r) = Some IdentifyAccounts).
Proof.
  intros H.
  pose proof (H demo_clock 0
    (ExecState "i" "C1" "ClaimWorkflow"
       (Some {["validate" := VStr "yes"; "claim_details" := VStr ""]}) None)
    _ _ _ eq_refl) as H'.
  vm_compute in H'. discriminate H'.
Qed.

Lemma resume_unknown_fails_witness :
  resume demo_clock "unknown-id" "u" ∅ empty_world =
  (empty_world, inl (ValueError "No workflow found: unknown-id")).
Proof. apply (resume_unknown_fails demo_clock "unknown-id" "u" ∅ empty_world). reflexivity. Defined.

Lemma gather_guard_by_truthiness_witness :
  ∃ v, bag_of gather_demo !! "claim_details" = Some v ∧
       route GatherClaimInfo (Dict gather_demo_after) =
       (if truthy v then Some IdentifyAccounts else None).
Proof.
  apply (gather_guard_by_truthiness demo_clock 0 gather_demo 1
           gather_demo_after gather_demo_after).
  vm_compute. reflexivity.
Defined.

(** C2 fails as stated: an instance aborted at the last question and then
    resumed with the opposite answer has its metadata status pass from
    [aborted] to [completed], and its log holds two terminal events. *)
Lemma terminal_outcome_counterexample :
  reachable demo_clock demo_uuid "ClaimWorkflow" demo_reversed ∧
  status <$> meta_ns demo_declined !! demo_id = Some "aborted" ∧
  status <$> meta_ns demo_reversed !! demo_id = Some "completed" ∧
  event_kinds (terminal_events (history demo_id demo_reversed)) = ["aborted"; "completed"] ∧
  event_kinds (terminal_events (history demo_id demo_refused_again)) = ["aborted"; "aborted"].
Proof.
  split; [repeat apply reach_step; apply reach_empty|].
  vm_compute. repeat split; reflexivity.
Qed.

Lemma demo_started_reachable : reachable demo_clock demo_uuid "ClaimWorkflow" demo_started.
Proof. apply reach_step, reach_empty. Defined.

Lemma demo_refused_reachable : reachable demo_clock demo_uuid "ClaimWorkflow" demo_refused.
Proof. apply reach_step, demo_started_reachable. Defined.

Lemma terminal_status_stays_witness :
  (∀ c iid,
     (List.length (terminal_events (history iid (demo_exec c demo_refused))) ≤
        S (List.length (terminal_events (history iid demo_refused))))%nat) ∧
  (∀ c iid m,
     fresh_id demo_uuid c demo_refused → meta_ns demo_refused !! iid = Some m →
     terminal_status (status m) = true →
     ∃ m', meta_ns (demo_exec c demo_refused) !! iid = Some m' ∧
           terminal_status (status m') = true) ∧
  (∀ iid actor updates m out,
     meta_ns demo_refused !! iid = Some m → terminal_status (status m) = true →
     (resume demo_clock iid actor updates demo_refused).2 = inr out →
     summary_prompt out = None →
     ∃ e, terminal_events (history iid (resume demo_clock iid actor updates demo_refused).1) =
            terminal_events (history iid demo_refused) ++ [e] ∧
          ev_event e = event_kind out ∧ terminal_kind (ev_event e) = true).
Proof.
  apply (terminal_status_stays demo_clock demo_uuid "ClaimWorkflow" demo_refused).
  exact demo_refused_reachable.
Defined.


Lemma unmatched_guard_stalls_witness :
  (resume demo_clock demo_id "u2" {["validate" := VStr "maybe"]} demo_started).2 =
    inr (SInProgress "Validate Request" demo_id) ∧
  summary_prompt (SInProgress "Validate Request" demo_id) = None ∧
  status <$> meta_ns (resume demo_clock demo_id "u2" {["validate" := VStr "maybe"]}
                        demo_started).1 !! demo_id = Some "in_progress" ∧
  ∃ e1 e2,
    history demo_id (resume demo_clock demo_id "u2" {["validate" := VStr "maybe"]}
                       demo_started).1 = history demo_id demo_started ++ [e1; e2] ∧
    ev_event e1 = "resume_command" ∧ ev_event e2 = "progressed".
Proof.
  apply (unmatched_guard_stalls demo_clock demo_uuid "ClaimWorkflow" demo_started
           demo_id demo_started_state demo_started_meta "u2"
           {["validate" := VStr "maybe"]} ValidateRequest).
  - exact demo_started_reachable.
  - vm_compute. reflexivity.
  - vm_compute. reflexivity.
  - reflexivity.
  - split; [apply reaches_entry|].
    exists "validate", "Validate request? (yes/no)", (VStr "maybe").
    vm_compute. repeat split; reflexivity.
Defined.

Lemma steps_history_append_only_witness :
  (∀ iid m, meta_ns demo_started !! iid = Some m → no_repeat (steps_history m)) ∧
  (∀ c iid m, fresh_id demo_uuid c demo_started → meta_ns demo_started !! iid = Some m →
     ∃ m', meta_ns (exec demo_clock demo_uuid "ClaimWorkflow" c demo_started) !! iid = Some m' ∧
           steps_history m `prefix_of` steps_history m' ∧
           (List.length (steps_history m) ≤ List.length (steps_history m'))%nat).
Proof.
  apply (steps_history_append_only demo_clock demo_uuid "ClaimWorkflow" demo_started).
  exact demo_started_reachable.
Defined.

Lemma two_events_per_call_witness :
  (∀ cust by_,
     let r := start demo_clock demo_uuid "ClaimWorkflow" cust by_ demo_started in
     ∃ iid out e1 e2, r.2 = inr (iid, out) ∧
       history iid r.1 = history iid demo_started ++ [e1; e2] ∧
       ev_event e1 = "created" ∧ ev_event e2 = event_kind out ∧
       ev_event e2 ∈ ["paused"; "progressed"; "completed"; "aborted"]) ∧
  (∀ iid actor updates out,
     let r := resume demo_clock iid actor updates demo_started in
     r.2 = inr out →
     ∃ e1 e2, history iid r.1 = history iid demo_started ++ [e1; e2] ∧
       ev_event e1 = "resume_command" ∧ ev_event e2 = event_kind out ∧
       ev_event e2 ∈ ["paused"; "progressed"; "completed"; "aborted"]).
Proof.
  apply (two_events_per_call demo_clock demo_uuid "ClaimWorkflow" demo_started).
  exact demo_started_reachable.
Defined.


Lemma metadata_status_never_paused_witness :
  known_status (status demo_started_meta) ∧ status demo_started_meta ≠ "paused" ∧
  ∃ s, state_ns demo_started !! demo_id = Some s ∧
       sm_status (meta_of s) = Some (status demo_started_meta).
Proof.
  apply (metadata_status_never_paused demo_clock demo_uuid "ClaimWorkflow"
           demo_started demo_id demo_started_meta).
  - exact demo_started_reachable.
  - vm_compute. reflexivity.
Defined.

Lemma index_lists_every_instance_once_witness :
  NoDup (index_of demo_started) ∧
  ∀ iid, (iid ∈ index_of demo_started ↔ is_Some (get_meta iid demo_started)) ∧
         (iid ∈ index_of demo_started ↔ is_Some (get_state iid demo_started)).
Proof.
  apply (index_lists_every_instance_once demo_clock demo_uuid "ClaimWorkflow" demo_started).
  exact demo_started_reachable.
Defined.

Lemma list_instances_unfiltered_witness :
  (∀ m, m ∈ list_instances None None None None demo_started ↔
        ∃ iid, get_meta iid demo_started = Some m) ∧
  List.length (list_instances None None None None demo_started) =
    List.length (index_of demo_started).
Proof.
  apply (list_instances_unfiltered demo_clock demo_uuid "ClaimWorkflow" demo_started).
  exact demo_started_reachable.
Defined.

Lemma no_instance_is_listed_as_paused_witness :
  list_instances None (Some "paused") None None demo_started = [].
Proof.
  apply (no_instance_is_listed_as_paused demo_clock demo_uuid "ClaimWorkflow"
           None None None demo_started).
  exact demo_started_reachable.
Defined.

Lemma pending_human_steps_empty_witness : pending_human_steps demo_started = [].
Proof.
  apply (pending_human_steps_empty demo_clock demo_uuid "ClaimWorkflow" demo_started).
  exact demo_started_reachable.
Defined.

Lemma resume_only_adds_to_bag_witness :
  ∃ s', get_state demo_id (resume demo_clock demo_id "u2" demo_yes demo_started).1 = Some s' ∧
    (∀ k, is_Some (bag_of demo_started_state !! k) → is_Some (bag_of s' !! k)) ∧
    (∀ k v, k ≠ "result" → demo_yes !! k = Some v → bag_of s' !! k = Some v) ∧
    (∀ k, k ≠ "result" → demo_yes !! k = None →
          bag_of s' !! k = bag_of demo_started_state !! k).
Proof.
  eapply (resume_only_adds_to_bag demo_clock demo_uuid "ClaimWorkflow" demo_started
            demo_id "u2" demo_yes demo_started_state).
  - exact demo_started_reachable.
  - vm_compute. reflexivity.
  - vm_compute. reflexivity.
Defined.

Lemma calls_leave_other_instances_alone_witness :
  get_state demo_id (demo_exec (Start "C2" "u9") demo_started) = get_state demo_id demo_started ∧
  get_meta demo_id (demo_exec (Start "C2" "u9") demo_started) = get_meta demo_id demo_started ∧
  history demo_id (demo_exec (Start "C2" "u9") demo_started) = history demo_id demo_started.
Proof.
  apply (calls_leave_other_instances_alone demo_clock demo_uuid "ClaimWorkflow"
           demo_started (Start "C2" "u9") demo_id).
  - exact demo_started_reachable.
  - intros H. vm_compute in H. discriminate H.
Defined.

Lemma event_log_append_only_witness :
  history demo_id demo_started `prefix_of`
  history demo_id (demo_exec (Resume demo_id "u2" demo_yes) demo_started).
Proof.
  apply (event_log_append_only demo_clock demo_uuid "ClaimWorkflow" demo_started
           (Resume demo_id "u2" demo_yes) demo_id).
  exact demo_started_reachable.
Defined.

Lemma resume_without_metadata_witness :
  let r := resume demo_clock "x" "u" demo_yes orphan_world in
  r.2 = inl (ValueError "Missing meta") ∧
  (∃ s', state_ns r.1 !! "x" = Some s' ∧
         ∀ k, k ≠ "result" → bag_of s' !! k = (demo_yes ∪ ∅) !! k) ∧
  meta_ns r.1 = meta_ns orphan_world ∧ index_ns r.1 = index_ns orphan_world ∧
  ∃ e, history "x" r.1 = history "x" orphan_world ++ [e] ∧ ev_event e = "resume_command".
Proof.
  apply (resume_without_metadata demo_clock "x" "u" demo_yes orphan_world
           (ExecState "x" "C1" "ClaimWorkflow" (Some ∅) None)).
  - vm_compute. reflexivity.
  - vm_compute. reflexivity.
Defined.

Lemma identity_fields_never_change_witness :
  ∃ m', get_meta demo_id (demo_exec (Resume demo_id "u2" demo_yes) demo_started) = Some m' ∧
    instance_id m' = instance_id demo_started_meta ∧
    customer_id m' = customer_id demo_started_meta ∧
    workflow_name m' = workflow_name demo_started_meta ∧
    started_by m' = started_by demo_started_meta ∧
    (truthy_str (start_time demo_started_meta) = true →
     start_time m' = start_time demo_started_meta).
Proof.
  apply (identity_fields_never_change demo_clock demo_uuid "ClaimWorkflow" demo_started
           (Resume demo_id "u2" demo_yes) demo_id demo_started_meta).
  - exact demo_started_reachable.
  - exact I.
  - vm_compute. reflexivity.
Defined.

Lemma resume_keeps_start_time_witness :
  ∃ s', get_state demo_id (resume demo_clock demo_id "u2" demo_yes demo_started).1 = Some s' ∧
        sm_start_time (meta_of s') = Some (demo_clock 0).
Proof.
  eapply (resume_keeps_start_time demo_clock demo_uuid "ClaimWorkflow" demo_started
            demo_id "u2" demo_yes demo_started_state (demo_clock 0)).
  - exact demo_started_reachable.
  - vm_compute. reflexivity.
  - vm_compute. reflexivity.
  - vm_compute. reflexivity.
Defined.

Lemma refusal_aborts_witness :
  let r := resume demo_clock demo_id "u2" demo_no demo_started in
  r.2 = inr (SAborted "Cancel CWD Request" (Some (VStr "Workflow aborted.")) demo_id) ∧
  ∃ m', get_meta demo_id r.1 = Some m' ∧ status m' = "aborted" ∧
        last_node m' = Some "Cancel CWD Request".
Proof.
  apply (refusal_aborts demo_clock demo_uuid "ClaimWorkflow" demo_started
           demo_id "u2" demo_no demo_started_state).
  - exact demo_started_reachable.
  - vm_compute. reflexivity.
  - vm_compute. reflexivity.
Defined.

Lemma fulfilment_completes_witness :
  let r := resume demo_clock demo_id "u2" demo_all_answers demo_started in
  r.2 = inr (SCompleted "Fulfill Case and Detect"
               (Some (VStr "Fulfilled and detection complete.")) demo_id) ∧
  ∃ m', get_meta demo_id r.1 = Some m' ∧ status m' = "completed" ∧
        last_node m' = Some "Fulfill Case and Detect".
Proof.
  apply (fulfilment_completes demo_clock demo_uuid "ClaimWorkflow" demo_started
           demo_id "u2" demo_all_answers demo_started_state).
  - exact demo_started_reachable.
  - vm_compute. reflexivity.
  - vm_compute. repeat split; try reflexivity. left. reflexivity.
Defined.

Lemma pause_means_missing_key_witness :
  ∃ n key, asks n = Some (key, "Provide claim details") ∧
    (demo_yes ∪ bag_of demo_started_state) !! key = None ∧
    reaches (demo_yes ∪ bag_of demo_started_state) n ∧
    ∃ m', get_meta demo_id (resume demo_clock demo_id "u2" demo_yes demo_started).1 = Some m' ∧
          last_node m' = Some (node_name n) ∧ status m' = status demo_started_meta.
Proof.
  eapply (pause_means_missing_key demo_clock demo_uuid "ClaimWorkflow" demo_started
            demo_id "u2" demo_yes demo_started_state demo_started_meta
            "Provide claim details" demo_id).
  - exact demo_started_reachable.
  - vm_compute. reflexivity.
  - vm_compute. reflexivity.
  - vm_compute. reflexivity.
Defined.

Lemma step_history_ends_at_last_node_witness :
  (∃ h n, last (steps_history demo_started_meta) = Some h ∧ h_node h = node_name n ∧
          last_node demo_started_meta = Some (node_name n)) ∧
  Forall (λ h, named_node (h_node h)) (steps_history demo_started_meta).
Proof.
  apply (step_history_ends_at_last_node demo_clock demo_uuid "ClaimWorkflow"
           demo_started demo_id demo_started_meta).
  - exact demo_started_reachable.
  - vm_compute. reflexivity.
Defined.

Lemma resume_records_the_step_witness :
  ∃ m', get_meta demo_id (resume demo_clock demo_id "u2" demo_yes demo_started).1 = Some m' ∧
    last_actor m' = Some "u2" ∧
    ((last_node m' = last_node demo_started_meta ∧
      steps_history m' = steps_history demo_started_meta) ∨
     (last_node m' ≠ last_node demo_started_meta ∧
      ∃ e, steps_history m' = steps_history demo_started_meta ++ [e] ∧
           last_node m' = Some (h_node e) ∧ h_actor e = "u2" ∧
           h_status e = status m')).
Proof.
  eapply (resume_records_the_step demo_clock demo_uuid "ClaimWorkflow" demo_started
            demo_id "u2" demo_yes demo_started_meta).
  - exact demo_started_reachable.
  - vm_compute. reflexivity.
  - vm_compute. reflexivity.
Defined.

Lemma event_log_shape_witness :
  (∃ e rest, history demo_id demo_started = e :: rest ∧ ev_event e = "created") ∧
  Forall (λ e, ev_instance_id e = demo_id) (history demo_id demo_started) ∧
  Nat.Even (List.length (history demo_id demo_started)).
Proof.
  apply (event_log_shape demo_clock demo_uuid "ClaimWorkflow" demo_started demo_id).
  - exact demo_started_reachable.
  - vm_compute. eauto.
Defined.

Lemma api_rejection_leaves_store_witness :
  (provide_human_input demo_clock "unknown-id" "u" ∅ empty_world).1 = empty_world ∧
  ((404 = 404 ∧ get_meta "unknown-id" empty_world = None) ∨
   (404 = 400 ∧ ∃ m, get_meta "unknown-id" empty_world = Some m ∧
                     last_node m ≠ Some "Gather Claim Info" ∧
                     last_node m ≠ Some "Validate Request")).
Proof.
  apply (api_rejection_leaves_store demo_clock "unknown-id" "u" ∅ empty_world
           404 "Workflow not found").
  reflexivity.
Defined.

Lemma api_accepts_human_steps_witness :
  ∃ out, resume demo_clock demo_id "u2" demo_yes demo_started =
           ((resume demo_clock demo_id "u2" demo_yes demo_started).1, inr out) ∧
         provide_human_input demo_clock demo_id "u2" demo_yes demo_started =
           ((resume demo_clock demo_id "u2" demo_yes demo_started).1, inr (demo_id, out)).
Proof.
  apply (api_accepts_human_steps demo_clock demo_uuid "ClaimWorkflow"
           demo_id "u2" demo_yes demo_started demo_started_meta).
  - exact demo_started_reachable.
  - vm_compute. reflexivity.
  - vm_compute. reflexivity.
Defined.

Lemma api_locks_after_claim_details_witness :
  ∃ w' out,
    provide_human_input demo_clock demo_id "u2" demo_details demo_started =
      (w', inr (demo_id, out)) ∧
    ∀ actor' updates', ∃ detail,
      provide_human_input demo_clock demo_id actor' updates' w' =
      (w', inl (HTTPException 400 detail)).
Proof.
  apply (api_locks_after_claim_details demo_clock demo_uuid "ClaimWorkflow"
           demo_id "u2" demo_details demo_started demo_started_meta demo_started_state).
  - exact demo_started_reachable.
  - vm_compute. reflexivity.
  - vm_compute. reflexivity.
  - vm_compute. reflexivity.
  - vm_compute. reflexivity.
  - vm_compute. reflexivity.
Defined.

Lemma diagram_follows_step_history_witness :
  dashboard_meta demo_started_meta = demo_started_meta ∧
  ∃ h, last (steps_history demo_started_meta) = Some h ∧
       last_node demo_started_meta = Some (h_node h) ∧
       Forall (λ e, is_Some (node_id (h_node e))) (steps_history demo_started_meta) ∧
       visited_styles demo_started_meta =
         ((λ e, visited_style (default "" (node_id (h_node e)))) <$>
            steps_history demo_started_meta) ++
         [current_style (default "" (node_id (h_node h)))].
Proof.
  apply (diagram_follows_step_history demo_clock demo_uuid "ClaimWorkflow"
           demo_started demo_id demo_started_meta).
  - exact demo_started_reachable.
  - vm_compute. reflexivity.
Defined.


Lemma stalled_run_repeats_finished_status_witness :
  let r := resume demo_clock demo_id "u3" {["validate" := VStr "maybe"]} demo_refused in
  let res := ({["validate" := VStr "maybe"]} ∪ bag_of demo_refused_state) !! "result" in
  r.2 = inr (if String.eqb (status demo_refused_meta) "completed"
             then SCompleted (node_name ValidateRequest) res demo_id
             else SAborted (node_name ValidateRequest) res demo_id) ∧
  ∃ m', get_meta demo_id r.1 = Some m' ∧ status m' = status demo_refused_meta ∧
        last_node m' = Some (node_name ValidateRequest).
Proof.
  apply (stalled_run_repeats_finished_status demo_clock demo_uuid "ClaimWorkflow"
           demo_refused demo_id demo_refused_state demo_refused_meta "u3"
           {["validate" := VStr "maybe"]} ValidateRequest).
  - exact demo_refused_reachable.
  - vm_compute. reflexivity.
  - vm_compute. reflexivity.
  - vm_compute. reflexivity.
  - split; [apply reaches_entry|].
    exists "validate", "Validate request? (yes/no)", (VStr "maybe").
    vm_compute. repeat split; reflexivity.
Defined.

Lemma index_append_only_witness :
  index_of demo_started `prefix_of`
    index_of (demo_exec (Resume demo_id "u2" demo_yes) demo_started) ∧
  (∀ iid actor updates, Resume demo_id "u2" demo_yes = Resume iid actor updates →
     index_of (demo_exec (Resume demo_id "u2" demo_yes) demo_started) = index_of demo_started).
Proof.
  apply (index_append_only demo_clock demo_uuid "ClaimWorkflow" demo_started
           (Resume demo_id "u2" demo_yes)).
  exact demo_started_reachable.
Defined.
